(** * amazon-ssm-agent: the offline command hand-off and the updater's
      process executor

    A shallow embedding of
    - [agent/cli/clicommand/sendcommand.go] (validation of the
      [send-offline-command] input, validation of the command document and
      the polling of the local command folders), and
    - [agent/updateutil/updateutil.go] (output paths, [setExeOutErr],
      [ExeCommand], the systemd decision),
    followed by the properties proved about them.

    Go strings are byte sequences; they are modelled by [string] (a sequence
    of [ascii], i.e. of bytes).  Go's [int] is modelled by [Z]: every integer
    below is an index into a string or a process exit status, far from the
    bounds of a machine word. *)

From Stdlib Require Import ZArith Lia Ascii.
From stdpp Require Import gmap strings list pretty.

Local Open Scope Z_scope.

(** ** The Go [error] interface

    The code distinguishes two dynamic types of errors: the [ExitError] of
    package [exec] (returned by [Wait] when the child exits unsuccessfully),
    whose [Sys()] may be a [syscall.WaitStatus] with an [ExitStatus()], and
    everything else, of which only the text [Error()] is ever used.  [None]
    in [option error] is Go's [nil]. *)
Inductive error : Type :=
| ExitError (text : string) (waitStatus : option Z)
| errorString (text : string).

Definition Error (e : error) : string :=
  match e with
  | ExitError text _ => text
  | errorString text => text
  end.

(** ** Package [strings] of the Go standard library, as far as it is used *)
Module Strings.

(** [strings.HasPrefix(s, prefix)] *)
Fixpoint HasPrefix (s prefix : string) {struct prefix} : bool :=
  match prefix, s with
  | EmptyString, _ => true
  | String _ _, EmptyString => false
  | String p prefix', String c s' =>
      if Ascii.eqb c p then HasPrefix s' prefix' else false
  end.

(** [strings.Index(s, substr)]: the index of the first instance of
    [substr] in [s], or -1. *)
Fixpoint Index (s substr : string) : Z :=
  if HasPrefix s substr then 0
  else match s with
       | EmptyString => -1
       | String _ s' =>
           let r := Index s' substr in
           if r <? 0 then -1 else 1 + r
       end.

(** [strings.Contains(s, substr)] is [Index(s, substr) >= 0]. *)
Definition Contains (s substr : string) : bool := 0 <=? Index s substr.

(** [strings.LastIndex(s, substr)]: the index of the last instance of
    [substr] in [s], or -1. *)
Fixpoint LastIndex (s substr : string) : Z :=
  match s with
  | EmptyString => if HasPrefix s substr then 0 else -1
  | String _ s' =>
      let r := LastIndex s' substr in
      if 0 <=? r then 1 + r
      else if HasPrefix s substr then 0 else -1
  end.

(** The slice expression [s[i:]].  Go panics unless [0 <= i <= len(s)];
    the only use below is [file[LastIndex(file, ".")+1:]], which is always
    in range (lemma [LastIndex_range]). *)
Fixpoint drop_bytes (n : nat) (s : string) : string :=
  match n, s with
  | O, _ => s
  | S n', String _ s' => drop_bytes n' s'
  | S _, EmptyString => EmptyString
  end.

Definition SliceFrom (s : string) (i : Z) : string :=
  drop_bytes (Z.to_nat i) s.

(** [strings.Join(elems, sep)] *)
Fixpoint Join (elems : list string) (sep : string) : string :=
  match elems with
  | [] => ""
  | [e] => e
  | e :: rest => e +:+ sep +:+ Join rest sep
  end.

(** [unicode.IsSpace] on the UTF-8 encoding: the number of bytes of the
    white space character that [s] starts with, or 0 when [s] does not
    start with one.  White space is U+0009..U+000D, U+0020, U+0085,
    U+00A0, U+1680, U+2000..U+200A, U+2028, U+2029, U+202F, U+205F and
    U+3000. *)
Definition space_width (s : string) : nat :=
  match s with
  | EmptyString => 0%nat
  | String c0 s1 =>
      let b0 := Ascii.N_of_ascii c0 in
      if ((9 <=? b0) && (b0 <=? 13) || (b0 =? 32))%N then 1%nat
      else match s1 with
      | EmptyString => 0%nat
      | String c1 s2 =>
          let b1 := Ascii.N_of_ascii c1 in
          if ((b0 =? 194) && ((b1 =? 133) || (b1 =? 160)))%N then 2%nat
          else match s2 with
          | EmptyString => 0%nat
          | String c2 _ =>
              let b2 := Ascii.N_of_ascii c2 in
              if ((b0 =? 225) && (b1 =? 154) && (b2 =? 128)
                  || (b0 =? 226) && (b1 =? 128)
                     && ((128 <=? b2) && (b2 <=? 138)
                         || (b2 =? 168) || (b2 =? 169) || (b2 =? 175))
                  || (b0 =? 226) && (b1 =? 129) && (b2 =? 159)
                  || (b0 =? 227) && (b1 =? 128) && (b2 =? 128))%N
              then 3%nat else 0%nat
          end
      end
  end.

(** The field collected so far, if there is one. *)
Definition flush (cur : option string) : list string :=
  match cur with
  | None => []
  | Some w => [String.rev w]
  end.

(** [strings.Fields(s)]: the maximal runs of non-space characters of [s].
    [skip] counts the remaining bytes of a multi-byte white space
    character; [cur] holds the current field, reversed. *)
Fixpoint Fields_go (skip : nat) (cur : option string) (s : string)
  : list string :=
  match s with
  | EmptyString => flush cur
  | String c s' =>
      match skip with
      | S k => Fields_go k cur s'
      | O =>
          match space_width s with
          | O => Fields_go 0 (Some (String c (default "" cur))) s'
          | S w => flush cur ++ Fields_go w None s'
          end
      end
  end.

Definition Fields (s : string) : list string := Fields_go 0 None s.

(** The fast path of [strings.ToLower]: in a string of ASCII bytes the
    letters [A] to [Z] are replaced by [a] to [z].  With a byte above 127
    Go maps the characters by the tables of Unicode, which are not
    modelled: [strings.ToLower] itself is a parameter below, known on
    ASCII strings only. *)
Definition lowerByte (c : ascii) : ascii :=
  let b := Ascii.N_of_ascii c in
  if ((65 <=? b) && (b <=? 90))%N then Ascii.ascii_of_N (b + 32) else c.

Fixpoint lowerASCII (s : string) : string :=
  match s with
  | EmptyString => EmptyString
  | String c s' => String (lowerByte c) (lowerASCII s')
  end.

Fixpoint isASCII (s : string) : bool :=
  match s with
  | EmptyString => true
  | String c s' => (Ascii.N_of_ascii c <? 128)%N && isASCII s'
  end.

(** [strings.Replace(s, old, new, -1)] for a non-empty [old], as every
    call of it has: the instances of [old] are replaced from left to right,
    without overlap.  [skip] counts the remaining bytes of the instance
    just replaced. *)
Fixpoint Replace_go (old new : string) (skip : nat) (s : string) : string :=
  match s with
  | EmptyString => EmptyString
  | String c s' =>
      match skip with
      | S k => Replace_go old new k s'
      | O =>
          if HasPrefix s old
          then new +:+ Replace_go old new (String.length old - 1) s'
          else String c (Replace_go old new 0 s')
      end
  end.

Definition Replace (s old new : string) : string := Replace_go old new 0 s.

(** White space only, up to the end. *)
Fixpoint onlySpace (skip : nat) (s : string) : bool :=
  match s with
  | EmptyString => true
  | String c s' =>
      match skip with
      | S k => onlySpace k s'
      | O =>
          match space_width s with
          | O => false
          | S w => onlySpace w s'
          end
      end
  end.

(** [strings.TrimSpace(s)]: [s] without the white space at its two
    ends. *)
Fixpoint trimLeft (skip : nat) (s : string) : string :=
  match s with
  | EmptyString => EmptyString
  | String c s' =>
      match skip with
      | S k => trimLeft k s'
      | O =>
          match space_width s with
          | O => s
          | S w => trimLeft w s'
          end
      end
  end.

Fixpoint trimRight (s : string) : string :=
  match s with
  | EmptyString => EmptyString
  | String c s' => if onlySpace 0 s then EmptyString else String c (trimRight s')
  end.

Definition TrimSpace (s : string) : string := trimRight (trimLeft 0 s).

End Strings.

(** ** Package [path/filepath] (Unix): [Clean] and [Join] *)
Module Filepath.

(** The elements of a path between separators. *)
Fixpoint split_go (cur : string) (s : string) : list string :=
  match s with
  | EmptyString => [String.rev cur]
  | String c s' =>
      if Ascii.eqb c "/"%char then String.rev cur :: split_go "" s'
      else split_go (String c cur) s'
  end.

Definition split (s : string) : list string := split_go "" s.

(** One step of [Clean]: [out] is the stack of elements kept so far, the
    last one first. *)
Definition clean_step (rooted : bool) (out : list string) (elem : string)
  : list string :=
  if bool_decide (elem = "" ∨ elem = ".") then out
  else if bool_decide (elem = "..") then
    match out with
    | top :: out' =>
        if bool_decide (top = "..") then elem :: out else out'
    | [] => if rooted then out else [elem]
    end
  else elem :: out.

(** [filepath.Clean(path)] *)
Definition Clean (path : string) : string :=
  let rooted := Strings.HasPrefix path "/" in
  let out := foldl (clean_step rooted) [] (split path) in
  let body := Strings.Join (rev out) "/" in
  if rooted then "/" +:+ body
  else if bool_decide (body = "") then "." else body.

(** [filepath.Join(elem...)]: empty elements are ignored, the rest is
    joined by the separator and cleaned; no non-empty element gives the
    empty string. *)
Definition Join (elem : list string) : string :=
  match filter (λ e, e ≠ "") elem with
  | [] => ""
  | es => Clean (Strings.Join es "/")
  end.

End Filepath.

(** ** [agent/cli/clicommand/sendcommand.go] *)
Module clicommand.

Definition sendCommand : string := "send-offline-command".
Definition sendCommandContent : string := "content".

(** *** Validation of the command line *)
Section Input.
(** Package [cliutil] lies outside the two files embedded here: its
    three functions used by the validation are parameters. *)
Variable FormatFlag : string → string.
Variables ValidJson ValidUrl : string → bool.

(** What [fmt.Sprintf] prints for a [[]string] under the verb [%v]. *)
Definition formatSlice (l : list string) : string :=
  "[" +:+ Strings.Join l " " +:+ "]".

(** The body of the loop [for key, _ := range parameters]. *)
Definition unsupported (validation : list string) (key : string)
  : list string :=
  if bool_decide (key ≠ sendCommandContent)
  then validation ++ ["unknown parameter " +:+ FormatFlag key]
  else validation.

(** [validateSendCommandInput].  Go leaves the order in which [range]
    visits the keys of a map unspecified: [order] is the order of one
    run, a permutation of the keys of [parameters]. *)
Definition validateSendCommandInput (order : list string)
    (subcommands : list string) (parameters : gmap string (list string))
  : list string :=
  let validation := [] in
  if bool_decide (0 < length subcommands)%nat then
    validation ++
      [sendCommand +:+ " does not support subcommand "
         +:+ formatSlice subcommands; ""]
  else
    let validation :=
      match parameters !! sendCommandContent with
      | None =>
          validation ++ [FormatFlag sendCommandContent +:+ " is required"]
      | Some values =>
          match values with
          | [val] =>
              if negb (ValidJson val) && negb (ValidUrl val)
              then validation ++
                     [FormatFlag sendCommandContent
                        +:+ " value must be valid json or a URL"]
              else validation
          | _ =>
              validation ++
                ["expected 1 value for parameter "
                   +:+ FormatFlag sendCommandContent]
          end
      end in
    foldl unsupported validation order.

(** The orders in which one run of [range] may visit the keys. *)
Definition range_order (parameters : gmap string (list string))
    (order : list string) : Prop :=
  order ≡ₚ (map_to_list parameters).*1.

End Input.

(** *** Validation of the document *)
Section Content.
(** [contracts.DocumentContent], of which [validateContent] reads three
    fields; the types of the plugin configurations are left open. *)
Context {PluginConfig InstancePluginConfig : Type}.

Record DocumentContent : Type := {
  SchemaVersion : string;
  RuntimeConfig : gmap string PluginConfig;
  MainSteps : list InstancePluginConfig
}.

(** [validateContent]; [None] is the [nil] error. *)
Definition validateContent (content : DocumentContent) : option error :=
  if bool_decide (SchemaVersion content = "1.2") then
    if bool_decide (size (RuntimeConfig content) = 0%nat)
    then Some (errorString "runtimeConfig cannot be empty")
    else None
  else if bool_decide (SchemaVersion content = "2.0") then
    if bool_decide (length (MainSteps content) = 0%nat)
    then Some (errorString "mainSteps cannot be empty")
    else None
  else
    Some (errorString
            ("unsupported schema version " +:+ SchemaVersion content)).
End Content.
Arguments DocumentContent : clear implicits.

(** *** Waiting for the outcome of a submission *)

(** The folders are shared with the agent, which moves documents at any
    time: what a listing returns is not determined by this program.  The
    file system is an oracle indexed by a clock that every operation of
    this program advances by one. *)
Record FileSystem : Type := {
  (** [fileutil.GetFileNames(folder)] *)
  GetFileNames : nat → string → list string * option error;
  (** [fileutil.DeleteFile(path)] *)
  DeleteFile : nat → string → option error
}.

Inductive Event : Type :=
| EvGetFileNames (folder : string)
| EvSleep (nanoseconds : Z)
| EvDeleteFile (path : string).

Record World : Type := { clock : nat; trace : list Event }.

Definition start : World := {| clock := 0; trace := [] |}.

Definition M (A : Type) : Type := World → A * World.

Global Instance M_ret : MRet M := λ A a w, (a, w).

Global Instance M_bind : MBind M :=
  λ A B k m w, let '(a, w') := m w in k a w'.

Definition emit (e : Event) (w : World) : World :=
  {| clock := S (clock w); trace := trace w ++ [e] |}.

Definition getFileNames (fs : FileSystem) (folder : string)
  : M (list string * option error) :=
  λ w, (GetFileNames fs (clock w) folder, emit (EvGetFileNames folder) w).

Definition deleteFile (fs : FileSystem) (path : string) : M (option error) :=
  λ w, (DeleteFile fs (clock w) path, emit (EvDeleteFile path) w).

Definition Millisecond : Z := 1000000.

Definition sleep (d : Z) : M unit := λ w, (tt, emit (EvSleep d) w).

(** The loop of [isDocumentProcessed] over the names of a listing. *)
Fixpoint firstProcessed (documentName : string) (files : list string)
  : bool * string :=
  match files with
  | [] => (false, "")
  | file :: files' =>
      if Strings.HasPrefix file documentName && Strings.Contains file "."
      then (true, Strings.SliceFrom file (Strings.LastIndex file "." + 1))
      else firstProcessed documentName files'
  end.

(** [isDocumentProcessed]: the error of the listing is dropped. *)
Definition isDocumentProcessed (fs : FileSystem)
    (documentName folder : string) : M (bool * string) :=
  listing ← getFileNames fs folder;
  let files := listing.1 in
  mret (firstProcessed documentName files).

Section Wait.
(** The three folders are constants of package [appconfig]. *)
Variables LocalCommandRoot LocalCommandRootSubmitted
          LocalCommandRootInvalid : string.

Definition submitted (commandId : string) : string :=
  "successfully submitted with command id: " +:+ commandId.
Definition invalid : string :=
  "failed to submit document: document was invalid".
Definition timedOut : string := "failed to submit document: timed out".

(** One look at the two folders, as the body of the loop of
    [waitForSubmitStatus] and the code after the loop both have it;
    [None] when neither folder has the document. *)
Definition check (fs : FileSystem) (documentName : string)
  : M (option string) :=
  r ← isDocumentProcessed fs documentName LocalCommandRootSubmitted;
  let (processed, commandId) := r : bool * string in
  if processed then mret (Some (submitted commandId))
  else
    r ← isDocumentProcessed fs documentName LocalCommandRootInvalid;
    let (processed, _) := r : bool * string in
    if processed then mret (Some invalid) else mret None.

(** The loop [for i := 0; i < 10; i++], by the number of iterations
    that remain; [Some] is a [return] from inside the loop. *)
Fixpoint poll (fs : FileSystem) (documentName : string) (remaining : nat)
  : M (option string) :=
  match remaining with
  | O => mret None
  | S remaining' =>
      r ← check fs documentName;
      match r with
      | Some result => mret (Some result)
      | None =>
          _ ← sleep (500 * Millisecond);
          poll fs documentName remaining'
      end
  end.

(** [waitForSubmitStatus] *)
Definition waitForSubmitStatus (fs : FileSystem) (documentName : string)
  : M string :=
  r ← poll fs documentName 10;
  match r with
  | Some result => mret result
  | None =>
      let documentPath := Filepath.Join [LocalCommandRoot; documentName] in
      _ ← deleteFile fs documentPath;
      r ← check fs documentName;
      match r with
      | Some result => mret result
      | None => mret timedOut
      end
  end.
End Wait.

End clicommand.

(** ** [agent/updateutil/updateutil.go] *)
Module updateutil.

Definition DefaultOutputFolder : string := "output".
Definition DefaultStandOut : string := "stdout".
Definition DefaultStandErr : string := "stderr".
Definition PlatformRedHat : string := "red hat".
Definition PlatformUbuntu : string := "ubuntu".
Definition PlatformCentOS : string := "centos".
Definition PlatformWindows : string := "windows".
Definition DefaultUpdateExecutionTimeoutInSeconds : Z := 30.

Record InstanceContext : Type := {
  Region : string;
  Platform : string;
  PlatformVersion : string;
  InstallerName : string;
  Arch : string;
  CompressFormat : string
}.

(** *** Output paths *)

Definition UpdateOutputDirectory (updateRoot : string) : string :=
  Filepath.Join [updateRoot; DefaultOutputFolder].

Definition UpdateStandOutPath (updateRoot fileName : string) : string :=
  let fileName :=
    if bool_decide (fileName = "") then DefaultStandOut else fileName in
  Filepath.Join [UpdateOutputDirectory updateRoot; fileName].

Definition UpdateStandErrPath (updateRoot fileName : string) : string :=
  let fileName :=
    if bool_decide (fileName = "") then DefaultStandErr else fileName in
  Filepath.Join [UpdateOutputDirectory updateRoot; fileName].

(** *** The systemd decision *)

(** The package variables [isUsingSystemD] and [once]: a [nil] map has no
    keys, like the empty one. *)
Record Globals : Type := {
  isUsingSystemD : gmap string string;
  once : bool
}.

Definition initial : Globals := {| isUsingSystemD := ∅; once := false |}.

(** [getMinimumVersionForSystemD]: [once.Do] runs the initialisation the
    first time only. *)
Definition getMinimumVersionForSystemD (g : Globals)
  : gmap string string * Globals :=
  let g' :=
    if once g then g
    else {| isUsingSystemD :=
              <[PlatformUbuntu := "15"]>
                (<[PlatformRedHat := "7"]>
                   (<[PlatformCentOS := "7"]> ∅));
            once := true |} in
  (isUsingSystemD g', g').

Section SystemD.
(** [VersionCompare] is defined in another file of the package.  It
    either yields the sign of the comparison or fails: the caller never
    looks at the integer that comes with an error. *)
Variable VersionCompare : string → string → Z + error.

Definition IsPlatformUsingSystemD (i : InstanceContext) (g : Globals)
  : (bool * option error) * Globals :=
  let (systemDVersions, g) := getMinimumVersionForSystemD g in
  match systemDVersions !! Platform i with
  | Some val =>
      match VersionCompare (PlatformVersion i) val with
      | inr err => ((false, Some err), g)
      | inl compareResult =>
          if 0 <=? compareResult then ((true, None), g)
          else ((false, None), g)
      end
  | None => ((false, None), g)
  end.
End SystemD.

(** *** Running a command *)

(** An open [os.File]. *)
Record File : Type := { fd : nat; name : string }.

Global Instance File_eq_dec : EqDecision File.
Proof. solve_decision. Defined.

(** [exec.Cmd] *)
Record Cmd : Type := {
  Path : string;
  Args : list string;
  Dir : string;
  Stdout : option File;
  Stderr : option File
}.

(** [exec.Command(name, arg...)] *)
Definition execCommand (name : string) (arg : list string) : Cmd :=
  {| Path := name; Args := name :: arg; Dir := "";
     Stdout := None; Stderr := None |}.

Definition withDir (c : Cmd) (dir : string) : Cmd :=
  {| Path := Path c; Args := Args c; Dir := dir;
     Stdout := Stdout c; Stderr := Stderr c |}.

Definition withOutput (c : Cmd) (out err : option File) : Cmd :=
  {| Path := Path c; Args := Args c; Dir := Dir c;
     Stdout := out; Stderr := err |}.

(** What the operating system answers.  [openFile] also receives the
    number of earlier calls of this process, so that two calls with one
    path may differ.  The watcher [killProcessOnTimeout] runs
    concurrently with [Wait]; what it does to the child shows in the
    answers of [cmdWait] and [timerStop] only. *)
Record OS : Type := {
  mkDirAll : string → Z → option error;
  openFile : nat → string → Z → Z → option error;
  cmdStart : Cmd → option error;
  (** [command.Wait()] *)
  cmdWait : Cmd → option error;
  (** [timer.Stop()]: [false] when the timer has already fired *)
  timerStop : Cmd → bool
}.

(** The number of calls of [os.OpenFile] so far and the files this process
    holds open. *)
Record World : Type := { opened : nat; open_files : list File }.

Definition fresh : World := {| opened := 0; open_files := [] |}.

(** [os.OpenFile]: a [nil] file comes with an error. *)
Definition OpenFile (os : OS) (path : string) (flag perm : Z) (w : World)
  : (option File * option error) * World :=
  match openFile os (opened w) path flag perm with
  | Some err =>
      ((None, Some err),
       {| opened := S (opened w); open_files := open_files w |})
  | None =>
      let f := {| fd := opened w; name := path |} in
      ((Some f, None),
       {| opened := S (opened w); open_files := open_files w ++ [f] |})
  end.

(** [f.Close()]; the deferred calls drop its result. *)
Definition Close (f : option File) (w : World) : World :=
  match f with
  | Some f =>
      {| opened := opened w;
         open_files := filter (λ g, g ≠ f) (open_files w) |}
  | None => w
  end.

(** Flags of [os.OpenFile] (Linux). *)
Definition O_WRONLY : Z := 1.
Definition O_CREATE : Z := 64.
Definition O_APPEND : Z := 1024.

(** The permission bits [0600]. *)
Definition ownerReadWrite : Z := 6 * 64.

(** How a call ends: it returns its error, or it panics. *)
Inductive Outcome : Type :=
| Return (err : option error)
| Panic (reason : string).

Section Exec.
(** Defined elsewhere: a constant of package [pluginutil], one of package
    [appconfig], and the two functions of the platform specific files of
    this package. *)
Variable CommandStoppedPreemptivelyExitCode : Z.
Variable ReadWriteExecuteAccess : Z.
Variable setPlatformSpecificCommand : list string → list string.
Variable prepareProcess : Cmd → Cmd.

(** [setExeOutErr] *)
Definition setExeOutErr (os : OS) (updaterRoot stdOut stdErr : string)
    (w : World)
  : (option File * option File * option error) * World :=
  match mkDirAll os (UpdateOutputDirectory updaterRoot)
                 ReadWriteExecuteAccess with
  | Some err => ((None, None, Some err), w)
  | None =>
      let stdOut := UpdateStandOutPath updaterRoot stdOut in
      let stdErr := UpdateStandOutPath updaterRoot stdErr in
      let flag := Z.lor (Z.lor O_APPEND O_WRONLY) O_CREATE in
      let '((stdoutWriter, err), w) := OpenFile os stdOut flag ownerReadWrite w in
      match err with
      | Some err => ((stdoutWriter, None, Some err), w)
      | None =>
          let '((stderrWriter, err), w) :=
            OpenFile os stdErr flag ownerReadWrite w in
          match err with
          | Some err => ((stdoutWriter, stderrWriter, Some err), w)
          | None => ((stdoutWriter, stderrWriter, None), w)
          end
      end
  end.

(** The error [ExeCommand] builds from a failed [Wait]. *)
Definition exitStatusError (exitCode : Z) (err : error) : error :=
  errorString
    ("The execution of command returned Exit Status: "
       +:+ pretty exitCode +:+ " " +:+ String "010" " " +:+ Error err).

Definition indexOutOfRange : string := "index out of range".

(** [ExeCommand] *)
Definition ExeCommand (os : OS)
    (cmd workingDir updaterRoot stdOut stdErr : string) (isAsync : bool)
    (w : World) : Outcome * World :=
  let parts := Strings.Fields cmd in
  if isAsync then
    match parts with
    | [] => (Panic indexOutOfRange, w)
    | name :: arg =>
        let command := execCommand name arg in
        let command := withDir command workingDir in
        let command := prepareProcess command in
        match cmdStart os command with
        | Some err => (Return (Some err), w)
        | None => (Return None, w)
        end
    end
  else
    let tempCmd := setPlatformSpecificCommand parts in
    match tempCmd with
    | [] => (Panic indexOutOfRange, w)
    | name :: arg =>
        let command := execCommand name arg in
        let command := withDir command workingDir in
        let '((stdoutWriter, stderrWriter, exeErr), w) :=
          setExeOutErr os updaterRoot stdOut stdErr w in
        match exeErr with
        | Some exeErr => (Return (Some exeErr), w)
        | None =>
            (* the two deferred calls, which run last first *)
            let deferred (w : World) : World :=
              Close stdoutWriter (Close stderrWriter w) in
            let command := withOutput command stdoutWriter stderrWriter in
            match cmdStart os command with
            | Some err => (Return (Some err), deferred w)
            | None =>
                let err := cmdWait os command in
                let timedOut := negb (timerStop os command) in
                match err with
                | Some (ExitError _ (Some status) as err) =>
                    let exitCode := status in
                    let exitCode :=
                      if bool_decide (exitCode = -1) && timedOut
                      then CommandStoppedPreemptivelyExitCode
                      else exitCode in
                    (Return (Some (exitStatusError exitCode err)),
                     deferred w)
                | Some err => (Return (Some err), deferred w)
                | None => (Return None, deferred w)
                end
            end
        end
    end.
End Exec.

End updateutil.

(** ** [sendcommand.go]: the command as a whole *)
Module SendOfflineCommand.

(** [Name] *)
Definition Name : string := clicommand.sendCommand.

(** What the command does to its host, in order; the listings, the sleeps
    and the deletion of [waitForSubmitStatus] are the events of one
    [OpWait]. *)
Inductive Op : Type :=
| OpDownload (url : string)
| OpMakeDirs (path : string)
| OpWriteAllText (path content : string)
| OpWait (events : list clicommand.Event).

(** How [Execute] ends: with its two results, or in a panic. *)
Inductive Result : Type :=
| Returned (err : option error) (out : string)
| Panicked (reason : string).

Section Execute.
Context {PluginConfig InstancePluginConfig : Type}.
Local Abbreviation Document :=
  (clicommand.DocumentContent PluginConfig InstancePluginConfig).

(** Package [cliutil], [strings.ToLower] (see [lowerASCII]) and the
    folders of package [appconfig]. *)
Variable FormatFlag : string → string.
Variables ValidJson ValidUrl : string → bool.
Variable ToLower : string → string.
Variables LocalCommandRoot LocalCommandRootSubmitted
          LocalCommandRootInvalid : string.

(** The packages the command calls: [json], [artifact], [jsonutil],
    [uuid] and [fileutil]. *)
Record Host : Type := {
  (** [json.Unmarshal([]byte(raw), &content)] on a zero document *)
  Unmarshal : string → Document * option error;
  (** [artifact.Download]: the local file path of the output *)
  Download : string → string * option error;
  (** [jsonutil.UnmarshalFile(path, &content)] on a zero document *)
  UnmarshalFile : string → Document * option error;
  (** [jsonutil.Marshal(content)] *)
  Marshal : Document → string * option error;
  (** [uuid.NewV4().String()] *)
  NewV4 : string;
  (** [fileutil.MakeDirs(path)] *)
  MakeDirs : string → option error;
  (** [fileutil.WriteAllText(path, content)] *)
  WriteAllText : string → string → option error;
  (** the folders, as [waitForSubmitStatus] sees them *)
  files : clicommand.FileSystem
}.

(** The zero value of [contracts.DocumentContent]. *)
Definition zero : Document :=
  {| clicommand.SchemaVersion := "";
     clicommand.RuntimeConfig := ∅;
     clicommand.MainSteps := [] |}.

(** [loadContent].  The slice [url[7:]] is within the string: Go lowers a
    string character by character, so that a lowered string with the seven
    bytes of the scheme in front comes from one of seven bytes or more. *)
Definition loadContent (h : Host) (rawContent : string)
  : (option error * Document) * list Op :=
  if ValidJson rawContent then
    let (content, err) := Unmarshal h rawContent in
    ((err, content), [])
  else
    let url := rawContent in
    let url :=
      if Strings.HasPrefix (ToLower url) "file://"
      then Strings.SliceFrom url 7 else url in
    let (LocalFilePath, err) := Download h url in
    match err with
    | Some err => ((Some err, zero), [OpDownload url])
    | None =>
        let (content, err) := UnmarshalFile h LocalFilePath in
        ((err, content), [OpDownload url])
    end.

(** [submitCommandDocument] *)
Definition submitCommandDocument (h : Host) (content : string)
  : (option error * string) * list Op :=
  let documentName := NewV4 h in
  let documentPath := Filepath.Join [LocalCommandRoot; documentName] in
  match MakeDirs h LocalCommandRoot with
  | Some _ =>
      ((Some (errorString "failed to submit command"), ""),
       [OpMakeDirs LocalCommandRoot])
  | None =>
      match WriteAllText h documentPath content with
      | Some err =>
          ((Some err, ""),
           [OpMakeDirs LocalCommandRoot; OpWriteAllText documentPath content])
      | None =>
          ((None, documentName),
           [OpMakeDirs LocalCommandRoot; OpWriteAllText documentPath content])
      end
  end.

Definition newline : string := String "010" "".

(** [Execute].  [parameters[sendCommandContent][0]] panics on a slice
    without elements, which a missing key gives as well. *)
Definition Execute (h : Host) (order subcommands : list string)
    (parameters : gmap string (list string)) : Result * list Op :=
  let validation :=
    clicommand.validateSendCommandInput FormatFlag ValidJson ValidUrl
      order subcommands parameters in
  if bool_decide (0 < length validation)%nat then
    (Returned (Some (errorString (Strings.Join validation newline))) "", [])
  else
    match default [] (parameters !! clicommand.sendCommandContent) with
    | [] => (Panicked "index out of range", [])
    | rawContent :: _ =>
        let '((err, content), loaded) := loadContent h rawContent in
        match err with
        | Some err => (Returned (Some err) "", loaded)
        | None =>
            match clicommand.validateContent content with
            | Some err => (Returned (Some err) "", loaded)
            | None =>
                let (contentString, err) := Marshal h content in
                match err with
                | Some err => (Returned (Some err) "", loaded)
                | None =>
                    let '((err, documentName), written) :=
                      submitCommandDocument h contentString in
                    match err with
                    | Some err => (Returned (Some err) "", loaded ++ written)
                    | None =>
                        let (status, w) :=
                          clicommand.waitForSubmitStatus LocalCommandRoot
                            LocalCommandRootSubmitted LocalCommandRootInvalid
                            (files h) documentName clicommand.start in
                        (Returned None status,
                         loaded ++ written ++ [OpWait (clicommand.trace w)])
                    end
                end
            end
        end
    end.
End Execute.

End SendOfflineCommand.

(** ** [updateutil.go]: the instance, the service and the messages *)
Module Utility.
Import updateutil.

Definition PlatformLinux : string := "linux".
Definition PlatformAmazonLinux : string := "amazon".
Definition Updater : string := "updater".
Definition UpdateContextFileName : string := "updatecontext.json".
Definition UpdatePluginResultFileName : string := "updatepluginresult.json".

(** What [fmt] prints for an error under the verb [%v]. *)
Definition formatError (err : option error) : string :=
  match err with
  | None => "<nil>"
  | Some e => Error e
  end.

Section Instance.
(** [strings.ToLower] (see [lowerASCII]), [runtime.GOARCH] and the
    [CompressFormat] of the platform specific files. *)
Variable ToLower : string → string.
Variables GOARCH CompressFormat : string.

(** The probes behind [getRegion], [getPlatformName] and
    [getPlatformVersion]. *)
Record Probe : Type := {
  getRegion : string * option error;
  getPlatformName : string * option error;
  getPlatformVersion : string * option error
}.

(** The chain of [strings.Contains] tests: the platform and the installer
    of a lowered platform name. *)
Definition classify (platformName : string) : string * string :=
  if Strings.Contains platformName PlatformAmazonLinux
  then (PlatformLinux, PlatformLinux)
  else if Strings.Contains platformName PlatformRedHat
  then (PlatformRedHat, PlatformLinux)
  else if Strings.Contains platformName PlatformUbuntu
  then (PlatformUbuntu, PlatformUbuntu)
  else if Strings.Contains platformName PlatformCentOS
  then (PlatformCentOS, PlatformLinux)
  else (PlatformWindows, PlatformWindows).

(** [CreateInstanceContext]; [None] is the [nil] context. *)
Definition CreateInstanceContext (p : Probe)
  : option InstanceContext * option error :=
  let (region, err) := getRegion p in
  if bool_decide (region = "") then
    (None, Some (errorString ("Failed to get region, " +:+ formatError err)))
  else
    let (platformName, err) := getPlatformName p in
    match err with
    | Some err => (None, Some err)
    | None =>
        let platformName := ToLower platformName in
        let (platformName, installerName) := classify platformName in
        let (platformVersion, err) := getPlatformVersion p in
        match err with
        | Some err => (None, Some err)
        | None =>
            (Some {| Region := region;
                     Platform := platformName;
                     PlatformVersion := platformVersion;
                     InstallerName := installerName;
                     Arch := GOARCH;
                     updateutil.CompressFormat := CompressFormat |},
             None)
        end
    end.
End Instance.

(** [FileName] *)
Definition FileName (i : InstanceContext) (packageName : string) : string :=
  let fileName := "{PackageName}-{Platform}-{Arch}.{Compressed}" in
  let fileName := Strings.Replace fileName "{PackageName}" packageName in
  let fileName := Strings.Replace fileName "{Platform}" (InstallerName i) in
  let fileName := Strings.Replace fileName "{Arch}" (Arch i) in
  let fileName :=
    Strings.Replace fileName "{Compressed}" (updateutil.CompressFormat i) in
  fileName.

Section Messages.
(** [fmt.Sprintf] on the format and the arguments of the caller. *)
Context {Param : Type}.
Variable Sprintf : string → list Param → string.

(** [BuildMessage] *)
Definition BuildMessage (err : option error) (format : string)
    (params : list Param) : string :=
  let message := Sprintf format params in
  match err with
  | Some err => message +:+ ", ErrorMessage=" +:+ Error err
  | None => message
  end.

(** The body of the loop of [BuildMessages]. *)
Definition addError (errMessage : string) (err : error) : string :=
  if bool_decide (errMessage = "") then Error err
  else errMessage +:+ ", " +:+ Error err.

(** [BuildMessages] *)
Definition BuildMessages (errs : list error) (format : string)
    (params : list Param) : string :=
  let message := Sprintf format params in
  let errMessage := "" in
  if bool_decide (0 < length errs)%nat then
    let errMessage := foldl addError errMessage errs in
    message +:+ ", ErrorMessage=" +:+ errMessage
  else message.
End Messages.

(** [BuildUpdateCommand] *)
Definition BuildUpdateCommand (cmd arg value : string) : string :=
  if bool_decide (value = "") || bool_decide (arg = "") then cmd
  else cmd +:+ " -" +:+ arg +:+ " " +:+ value.

(** [UpdateArtifactFolder], [UpdateContextFilePath],
    [UpdatePluginResultFilePath] and [UpdaterFilePath] *)
Definition UpdateArtifactFolder (updateRoot packageName version : string)
  : string :=
  Filepath.Join [updateRoot; packageName; version].

Definition UpdateContextFilePath (updateRoot : string) : string :=
  Filepath.Join [updateRoot; UpdateContextFileName].

Definition UpdatePluginResultFilePath (updateRoot : string) : string :=
  Filepath.Join [updateRoot; UpdatePluginResultFileName].

Definition UpdaterFilePath (updateRoot updaterPackageName version : string)
  : string :=
  Filepath.Join
    [UpdateArtifactFolder updateRoot updaterPackageName version; Updater].

Section Service.
Variable VersionCompare : string → string → Z + error.

(** The commands behind [IsServiceRunning]: the [Output] of a command, and
    [agentExpectedStatus] and [agentStatusOutput] of the platform specific
    files. *)
Record Service : Type := {
  Output : Cmd → string * option error;
  agentExpectedStatus : string;
  agentStatusOutput : string * option error
}.

(** The status query that was run. *)
Inductive Query : Type :=
| QueryCommand (command : Cmd)
| QueryAgentStatus.

(** [IsServiceRunning], with the queries it has run. *)
Definition IsServiceRunning (sv : Service) (i : InstanceContext)
    (g : Globals) : ((bool * option error) * list Query) * Globals :=
  let '((isSystemD, err), g) := IsPlatformUsingSystemD VersionCompare i g in
  match err with
  | Some err => (((false, Some err), []), g)
  | None =>
      let '(expectedOutput, (commandOutput, err), queries) :=
        if isSystemD then
          let command :=
            execCommand "systemctl" ["status"; "amazon-ssm-agent.service"] in
          ("Active: active (running)", Output sv command,
           [QueryCommand command])
        else
          (agentExpectedStatus sv, agentStatusOutput sv, [QueryAgentStatus]) in
      match err with
      | Some err => (((false, Some err), queries), g)
      | None =>
          let agentStatus := Strings.TrimSpace commandOutput in
          if Strings.Contains agentStatus expectedOutput
          then (((true, None), queries), g)
          else (((false, None), queries), g)
      end
  end.
End Service.

End Utility.

(** * The vocabulary of the properties *)

(** ** Names of processed documents *)

(** A name has a separator. *)
Definition has_dot (s : string) : Prop := ∃ a b, s = a +:+ "." +:+ b.

(** A file name is that of a processed document [d]: it starts with [d]
    and has a separator. *)
Definition matches (d file : string) : Prop :=
  (∃ rest, file = d +:+ rest) ∧ has_dot file.

(** [id] is what follows the last separator of [file]. *)
Definition consumer_suffix (file id : string) : Prop :=
  (∃ stem, file = stem +:+ "." +:+ id) ∧ ¬ has_dot id.

(** The events of one unsuccessful attempt. *)
Definition attempt (Submitted Invalid : string) : list clicommand.Event :=
  [clicommand.EvGetFileNames Submitted; clicommand.EvGetFileNames Invalid;
   clicommand.EvSleep (500 * clicommand.Millisecond)].

(** No name of the listing of [folder] at time [t] matches [d]. *)
Definition no_match (fs : clicommand.FileSystem) (d : string) (t : nat)
    (folder : string) : Prop :=
  Forall (λ f, ¬ matches d f) (clicommand.GetFileNames fs t folder).1.

(** ** Violations of the input of [send-offline-command] *)

(** What can be wrong with an input. *)
Inductive Violation : Type :=
| Subcommands
| MissingContent
| ValueCount
| NeitherJsonNorUrl
| UnknownParameter (key : string).

(** When an input has a violation. *)
Definition present (ValidJson ValidUrl : string → bool)
    (subcommands : list string) (parameters : gmap string (list string))
    (v : Violation) : Prop :=
  match v with
  | Subcommands => subcommands ≠ []
  | MissingContent => parameters !! clicommand.sendCommandContent = None
  | ValueCount =>
      ∃ values, parameters !! clicommand.sendCommandContent = Some values
                ∧ length values ≠ 1%nat
  | NeitherJsonNorUrl =>
      ∃ val, parameters !! clicommand.sendCommandContent = Some [val]
             ∧ ValidJson val = false ∧ ValidUrl val = false
  | UnknownParameter key =>
      is_Some (parameters !! key) ∧ key ≠ clicommand.sendCommandContent
  end.

(** The message of a violation. *)
Definition message (FormatFlag : string → string) (subcommands : list string)
    (v : Violation) : string :=
  match v with
  | Subcommands =>
      clicommand.sendCommand +:+ " does not support subcommand "
        +:+ clicommand.formatSlice subcommands
  | MissingContent =>
      FormatFlag clicommand.sendCommandContent +:+ " is required"
  | ValueCount =>
      "expected 1 value for parameter "
        +:+ FormatFlag clicommand.sendCommandContent
  | NeitherJsonNorUrl =>
      FormatFlag clicommand.sendCommandContent
        +:+ " value must be valid json or a URL"
  | UnknownParameter key => "unknown parameter " +:+ FormatFlag key
  end.

(** ** The table of systemd *)

(** The table of the minimum versions, as the documentation gives it. *)
Definition SystemDVersionTable : gmap string string :=
  list_to_map [("centos", "7"); ("red hat", "7"); ("ubuntu", "15")].

(** What holds of the package variables at any time: once the
    initialisation has run, the map is the table. *)
Definition initialised (g : updateutil.Globals) : Prop :=
  updateutil.once g = true →
  updateutil.isUsingSystemD g = SystemDVersionTable.

(** ** White space *)

(** A string from the values of its bytes. *)
Definition bytes (l : list N) : string :=
  foldr (λ b s, String (ascii_of_N b) s) "" l.

(** The UTF-8 encodings of the white space characters of Unicode. *)
Definition white_space : list string :=
  bytes <$>
    [[9]; [10]; [11]; [12]; [13]; [32]; [194; 133]; [194; 160];
     [225; 154; 128];
     [226; 128; 128]; [226; 128; 129]; [226; 128; 130]; [226; 128; 131];
     [226; 128; 132]; [226; 128; 133]; [226; 128; 134]; [226; 128; 135];
     [226; 128; 136]; [226; 128; 137]; [226; 128; 138];
     [226; 128; 168]; [226; 128; 169]; [226; 128; 175];
     [226; 129; 159]; [227; 128; 128]]%N.

(** A string of white space only: it has no other character. *)
Inductive blank : string → Prop :=
| blank_nil : blank ""
| blank_space (sp s : string) :
    sp ∈ white_space → blank s → blank (sp +:+ s).

(** ** Output files *)

(** What [Clean] makes of a directory [dir] in front of a last element. *)
Definition cleaned_prefix (dir : string) : string :=
  let rooted := Strings.HasPrefix dir "/" in
  let out := foldl (Filepath.clean_step rooted) [] (Filepath.split dir) in
  (if rooted then "/" else "")
    +:+ match rev out with
        | [] => ""
        | elems => Strings.Join elems "/" +:+ "/"
        end.

(** A file name proper: one element, not the empty one and no dots. *)
Definition simple_name (name : string) : Prop :=
  Filepath.split name = [name] ∧ name ≠ "" ∧ name ≠ "." ∧ name ≠ "..".

(** The flags [setExeOutErr] opens its files with. *)
Definition flags : Z :=
  Z.lor (Z.lor updateutil.O_APPEND updateutil.O_WRONLY) updateutil.O_CREATE.

(** * Concrete runs *)

(** ** Command documents *)

(** A document of schema version 1.2 with one plugin, one of schema version
    2.0 without steps and one of an unknown schema version. *)
Definition document12 : clicommand.DocumentContent nat nat :=
  {| clicommand.SchemaVersion := "1.2";
     clicommand.RuntimeConfig := {["aws:runShellScript" := 1%nat]};
     clicommand.MainSteps := [] |}.

Definition document20 : clicommand.DocumentContent nat nat :=
  {| clicommand.SchemaVersion := "2.0";
     clicommand.RuntimeConfig := ∅;
     clicommand.MainSteps := [] |}.

Definition document03 : clicommand.DocumentContent nat nat :=
  {| clicommand.SchemaVersion := "0.3";
     clicommand.RuntimeConfig := {["aws:runShellScript" := 1%nat]};
     clicommand.MainSteps := [2%nat] |}.

(** ** Inputs of [send-offline-command] *)

(** Stand-ins for the three functions of [cliutil], to run the validation
    on concrete inputs. *)
Definition dashes (flagName : string) : string := "--" +:+ flagName.
Definition braces (val : string) : bool := Strings.HasPrefix val "{".
Definition scheme (val : string) : bool := Strings.Contains val "://".

(** A subcommand together with an unknown parameter and no content. *)
Definition status_verbose : list string * gmap string (list string) :=
  (["status"], {["verbose" := ["1"]]}).

(** Two values for the content and an unknown parameter. *)
Definition two_contents : gmap string (list string) :=
  <["verbose" := ["1"]]> {["content" := ["{}"; "{}"]]}.

(** ** The local command folders *)

Definition localCommandRoot : string := "/var/lib/amazon/ssm/localcommands".
Definition localCommandRootSubmitted : string :=
  "/var/lib/amazon/ssm/localcommands/submitted".
Definition localCommandRootInvalid : string :=
  "/var/lib/amazon/ssm/localcommands/invalid".

(** The agent moves the document to the submitted folder while the
    submitter deletes the pending file, and the deletion is refused. *)
Definition late_agent : clicommand.FileSystem :=
  {| clicommand.GetFileNames := λ t folder,
       if bool_decide (folder = localCommandRootSubmitted) && (31 <=? t)%nat
       then (["1f0e.77"; "8c2f"; "8c2f.7d1a.01"], None)
       else ([], None);
     clicommand.DeleteFile := λ _ _,
       Some (errorString "remove: permission denied") |}.

(** No folder can be listed. *)
Definition unreadable : clicommand.FileSystem :=
  {| clicommand.GetFileNames := λ _ _,
       ([], Some (errorString "open: permission denied"));
     clicommand.DeleteFile := λ _ _, None |}.

(** ** The updater *)

(** Stand-ins for what is defined elsewhere: the exit code of a command
    stopped preemptively, the access mode of the output directory, a
    [setPlatformSpecificCommand] and a [prepareProcess] that leave their
    argument as it is, and a [VersionCompare] that compares the numbers
    before the first dot. *)
Definition stoppedPreemptively : Z := 137.
Definition readWriteExecuteAccess : Z := 7 * 64.
Definition sameParts (parts : list string) : list string := parts.
Definition sameProcess (command : updateutil.Cmd) : updateutil.Cmd := command.

Fixpoint major (acc : Z) (s : string) : option Z :=
  match s with
  | EmptyString => Some acc
  | String c s' =>
      if Ascii.eqb c "." then Some acc
      else let d := Z.of_N (N_of_ascii c) - 48 in
           if (0 <=? d) && (d <=? 9) then major (10 * acc + d) s' else None
  end.

Definition compareMajor (a b : string) : Z + error :=
  match major 0 a, major 0 b with
  | Some x, Some y => inl (Z.sgn (x - y))
  | _, _ => inr (errorString "Invalid version string")
  end.

Definition updateRoot : string := "/var/lib/amazon/ssm/update".

(** Every call of the operating system succeeds and the child exits with
    status 0 in time. *)
Definition obliging : updateutil.OS :=
  {| updateutil.mkDirAll := λ _ _, None;
     updateutil.openFile := λ _ _ _ _, None;
     updateutil.cmdStart := λ _, None;
     updateutil.cmdWait := λ _, None;
     updateutil.timerStop := λ _, true |}.

(** The output directory has no subdirectory [logs]. *)
Definition no_logs : updateutil.OS :=
  {| updateutil.mkDirAll := λ _ _, None;
     updateutil.openFile := λ _ path _ _,
       if Strings.HasPrefix path "/var/lib/amazon/ssm/update/output/logs/"
       then Some (errorString "open: no such file or directory")
       else None;
     updateutil.cmdStart := λ _, None;
     updateutil.cmdWait := λ _, None;
     updateutil.timerStop := λ _, true |}.

(** The child outlives the timer and is killed. *)
Definition overrun : updateutil.OS :=
  {| updateutil.mkDirAll := λ _ _, None;
     updateutil.openFile := λ _ _ _ _, None;
     updateutil.cmdStart := λ _, None;
     updateutil.cmdWait := λ _, Some (ExitError "signal: killed" (Some (-1)));
     updateutil.timerStop := λ _, false |}.

Definition ubuntu1604 : updateutil.InstanceContext :=
  {| updateutil.Region := "us-east-1";
     updateutil.Platform := "ubuntu";
     updateutil.PlatformVersion := "16.04";
     updateutil.InstallerName := "ubuntu";
     updateutil.Arch := "amd64";
     updateutil.CompressFormat := "tar.gz" |}.

(** * The vocabulary of the further properties *)

(** [strings.ToLower] lowers the letters of a string of ASCII bytes. *)
Definition lowers_ascii (ToLower : string → string) : Prop :=
  ∀ s, Strings.isASCII s = true → ToLower s = Strings.lowerASCII s.

(** No byte of [s] is [c]. *)
Fixpoint has_no (c : ascii) (s : string) : Prop :=
  match s with
  | EmptyString => True
  | String x s' => x ≠ c ∧ has_no c s'
  end.

(** A byte of the encoding of some white space character. *)
Definition space_byte (c : ascii) : bool :=
  bool_decide
    (N_of_ascii c
     ∈ [9; 10; 11; 12; 13; 32; 133; 160; 194; 154; 225; 226; 227; 128; 129;
        130; 131; 132; 133; 134; 135; 136; 137; 138; 168; 169; 175; 159]%N).

Fixpoint all_bytes (P : ascii → bool) (s : string) : bool :=
  match s with
  | EmptyString => true
  | String c s' => P c && all_bytes P s'
  end.

(** The last byte of [String c s]. *)
Fixpoint last_byte (c : ascii) (s : string) : ascii :=
  match s with
  | EmptyString => c
  | String c' s' => last_byte c' s'
  end.

(** A text that neither starts nor ends with a byte of white space. *)
Definition solid_ends (m : string) : Prop :=
  match m with
  | EmptyString => False
  | String c m' => space_byte c = false ∧ space_byte (last_byte c m') = false
  end.

(** The query of [IsServiceRunning] under systemd. *)
Definition systemctl : updateutil.Cmd :=
  updateutil.execCommand "systemctl" ["status"; "amazon-ssm-agent.service"].

(** The stack that [Clean] keeps, the last element first: elements proper,
    and [..] only in a path that is not rooted, with nothing but [..]
    below it. *)
Fixpoint kept (rooted : bool) (out : list string) : Prop :=
  match out with
  | [] => True
  | e :: out' =>
      Filepath.split e = [e] ∧ e ≠ "" ∧ e ≠ "."
      ∧ (e = ".." → rooted = false ∧ (out' = [] ∨ ∃ rest, out' = ".." :: rest))
      ∧ kept rooted out'
  end.

(** * Further concrete runs *)

(** A host on which every call succeeds; the agent is [late_agent]. *)
Definition willing : SendOfflineCommand.Host (PluginConfig := nat)
                       (InstancePluginConfig := nat) :=
  {| SendOfflineCommand.Unmarshal := λ _, (document12, None);
     SendOfflineCommand.Download := λ _, ("/tmp/document.json", None);
     SendOfflineCommand.UnmarshalFile := λ _, (document12, None);
     SendOfflineCommand.Marshal := λ _, ("{schemaVersion:1.2}", None);
     SendOfflineCommand.NewV4 := "8c2f";
     SendOfflineCommand.MakeDirs := λ _, None;
     SendOfflineCommand.WriteAllText := λ _ _, None;
     SendOfflineCommand.files := late_agent |}.

(** One value for the content, which is JSON. *)
Definition one_content : gmap string (list string) :=
  {["content" := ["{}"]]}.

(** The agent has the document in the submitted folder, and another file
    of that name in the invalid folder, at the third attempt. *)
Definition third_attempt : clicommand.FileSystem :=
  {| clicommand.GetFileNames := λ t folder,
       if (6 <=? t)%nat then
         if bool_decide (folder = localCommandRootSubmitted)
         then (["8c2f.7d1a"], None) else (["8c2f.0000"], None)
       else ([], None);
     clicommand.DeleteFile := λ _ _, None |}.

(** A Red Hat host and an Amazon Linux host. *)
Definition redhat74 : Utility.Probe :=
  {| Utility.getRegion := ("us-east-1", None);
     Utility.getPlatformName := ("Red Hat Enterprise Linux Server", None);
     Utility.getPlatformVersion := ("7.4", None) |}.

Definition amazon2 : Utility.Probe :=
  {| Utility.getRegion := ("us-east-1", Some (errorString "metadata: slow"));
     Utility.getPlatformName := ("Amazon Linux (Red Hat based)", None);
     Utility.getPlatformVersion := ("2", None) |}.

Definition redhat74_context : updateutil.InstanceContext :=
  {| updateutil.Region := "us-east-1";
     updateutil.Platform := "red hat";
     updateutil.PlatformVersion := "7.4";
     updateutil.InstallerName := "linux";
     updateutil.Arch := "amd64";
     updateutil.CompressFormat := "tar.gz" |}.

Definition windows2016 : updateutil.InstanceContext :=
  {| updateutil.Region := "us-east-1";
     updateutil.Platform := "windows";
     updateutil.PlatformVersion := "10.0.14393";
     updateutil.InstallerName := "windows";
     updateutil.Arch := "amd64";
     updateutil.CompressFormat := "zip" |}.

(** The status commands of a host whose agent runs. *)
Definition running : Utility.Service :=
  {| Utility.Output := λ _,
       ("  Loaded: loaded  Active: active (running) since Mon " , None);
     Utility.agentExpectedStatus := "amazon-ssm-agent start/running";
     Utility.agentStatusOutput :=
       (" amazon-ssm-agent start/running, process 1 ", None) |}.

(** A stand-in for [fmt.Sprintf]: the format, then the arguments. *)
Definition format_verbs : string → list string → string :=
  λ format params, format +:+ Strings.Join params " ".

(** * Properties *)

#[local] Arguments String.app !_ _ / : simpl nomatch.

(** ** Tactics *)

Lemma N_le_step (lo b : N) : (lo ≤ b)%N → b = lo ∨ (N.succ lo ≤ b)%N.
Proof. lia. Qed.

(** A closed string is one of an explicit list. *)
Ltac in_list :=
  vm_compute;
  solve [repeat first [apply list_elem_of_here | apply list_elem_of_further]].

(** A string is none of the elements of an explicit list. *)
Ltac not_in_list :=
  let Hin := fresh "Hin" in
  let Heq := fresh "Heq" in
  intros Hin;
  repeat (apply elem_of_cons in Hin as [Heq | Hin]; [discriminate Heq|]);
  by apply not_elem_of_nil in Hin.

(** The tests of [space_width], as propositions. *)
Ltac tests H :=
  repeat first [ rewrite orb_true_iff in H | rewrite andb_true_iff in H
               | rewrite N.eqb_eq in H | rewrite N.leb_le in H ];
  repeat first [destruct_and! | destruct_or!].

(** The bytes from a lower bound on, one by one. *)
Ltac upwards Hlo :=
  repeat (apply N_le_step in Hlo as [-> | Hlo];
          [in_list | simpl N.succ in Hlo]).

(** ** Strings *)
Section StringFacts.
Import Strings.

Example Fields_sh : Fields "  sh  -c	uname " = ["sh"; "-c"; "uname"].
Proof. reflexivity. Qed.

Example Fields_no_break_space :
  Fields (bytes [194; 160; 32; 226; 128; 168]%N) = [].
Proof. reflexivity. Qed.

Example LastIndex_second_dot : LastIndex "ab.cd.ef" "." = 5.
Proof. reflexivity. Qed.

Example Join_root :
  Filepath.Join ["/var/lib/"; "output"; "stdout"] = "/var/lib/output/stdout".
Proof. vm_compute. reflexivity. Qed.

Example Join_dots : Filepath.Join ["a/../b"; ""; "./c/"] = "b/c".
Proof. vm_compute. reflexivity. Qed.

Example Join_above_root : Filepath.Join ["/.."; ".."] = "/".
Proof. vm_compute. reflexivity. Qed.

Example exitStatusError_text :
  Error (updateutil.exitStatusError (-1) (errorString "exit status 255"))
  = "The execution of command returned Exit Status: -1 "
      +:+ String "010" " exit status 255".
Proof. vm_compute. reflexivity. Qed.

Lemma append_nil_r (s : string) : s +:+ "" = s.
Proof. induction s as [|c s IH]; simpl; congruence. Qed.

Lemma append_assoc (a b c : string) : (a +:+ b) +:+ c = a +:+ b +:+ c.
Proof. induction a as [|x a IH]; simpl; congruence. Qed.

Lemma HasPrefix_spec (s prefix : string) :
  HasPrefix s prefix = true ↔ ∃ rest, s = prefix +:+ rest.
Proof.
  revert s. induction prefix as [|p prefix IH]; intros s; simpl.
  - split; [intros _; by exists s | done].
  - destruct s as [|c s]; simpl.
    + split; [done | intros [rest Hrest]; discriminate].
    + destruct (Ascii.eqb_spec c p) as [->|Hne].
      * rewrite IH. split; intros [rest Hrest]; exists rest; congruence.
      * split; [done | intros [rest Hrest]; congruence].
Qed.

Lemma Index_range (s substr : string) : -1 ≤ Index s substr.
Proof.
  induction s as [|c s IH]; simpl.
  - destruct substr; simpl; lia.
  - destruct (HasPrefix (String c s) substr); [lia|].
    destruct (Z.ltb_spec (Index s substr) 0); lia.
Qed.

Lemma Contains_spec (s substr : string) :
  Contains s substr = true ↔ ∃ a b, s = a +:+ substr +:+ b.
Proof.
  unfold Contains. rewrite Z.leb_le.
  induction s as [|c s IH].
  - cbn [Index]. destruct (HasPrefix "" substr) eqn:Hp.
    + apply HasPrefix_spec in Hp as [rest Hrest].
      split; [intros _; by exists "", rest | lia].
    + split; [lia|]. intros ([|x a] & b & Hab); [|discriminate].
      assert (HasPrefix "" substr = true) by (apply HasPrefix_spec; eauto).
      congruence.
  - cbn [Index]. destruct (HasPrefix (String c s) substr) eqn:Hp.
    + apply HasPrefix_spec in Hp as [rest Hrest].
      split; [intros _; by exists "", rest | lia].
    + pose proof (Index_range s substr).
      destruct (Z.ltb_spec (Index s substr) 0) as [Hlt|Hge].
      * split; [lia|]. intros ([|x a] & b & Hab).
        -- assert (HasPrefix (String c s) substr = true)
             by (apply HasPrefix_spec; eauto).
           congruence.
        -- simpl in Hab. injection Hab as -> ->.
           assert (0 ≤ Index (a +:+ substr +:+ b) substr)
             by (apply IH; eauto).
           lia.
      * split; [|lia]. intros _.
        destruct IH as [IH _]. destruct (IH Hge) as (a & b & ->).
        by exists (String c a), b.
Qed.

Lemma has_dot_cons (c : ascii) (s : string) :
  has_dot (String c s) ↔ c = "."%char ∨ has_dot s.
Proof.
  split.
  - intros ([|x a] & b & Hab); simpl in Hab; injection Hab as -> ->.
    + by left.
    + right. by exists a, b.
  - intros [-> | (a & b & ->)].
    + by exists "", s.
    + by exists (String c a), b.
Qed.

Lemma has_dot_nil : ¬ has_dot "".
Proof. intros ([|x a] & b & Hab); discriminate. Qed.

Lemma HasPrefix_dot (c : ascii) (s : string) :
  HasPrefix (String c s) "." = true ↔ c = "."%char.
Proof.
  simpl. destruct (Ascii.eqb_spec c "."); split; congruence.
Qed.

(** [LastIndex] of the separator: -1 without a separator, and otherwise
    the length of what precedes the last one. *)
Lemma LastIndex_dot (s : string) :
  (LastIndex s "." = -1 ∧ ¬ has_dot s)
  ∨ ∃ stem sfx,
      s = stem +:+ "." +:+ sfx
      ∧ LastIndex s "." = Z.of_nat (String.length stem)
      ∧ ¬ has_dot sfx.
Proof.
  induction s as [|c s IH].
  - left. split; [done | apply has_dot_nil].
  - cbn [LastIndex].
    destruct IH as [[Hr Hno] | (stem & sfx & -> & Hr & Hno)].
    + rewrite Hr. change (0 <=? -1) with false. cbv iota.
      destruct (HasPrefix (String c s) ".") eqn:Hp.
      * apply HasPrefix_dot in Hp as ->. right. by exists "", s.
      * left. split; [done|]. rewrite has_dot_cons. intros [-> | ?]; [|done].
        simpl in Hp. discriminate.
    + rewrite Hr. right. exists (String c stem), sfx.
      split; [done|]. split; [|done].
      destruct (Z.leb_spec 0 (Z.of_nat (String.length stem))); simpl; lia.
Qed.

Lemma LastIndex_range (s substr : string) :
  -1 ≤ LastIndex s substr ≤ Z.of_nat (String.length s).
Proof.
  induction s as [|c s IH]; cbn [LastIndex String.length].
  - destruct (HasPrefix "" substr); lia.
  - destruct (Z.leb_spec 0 (LastIndex s substr)); [lia|].
    destruct (HasPrefix (String c s) substr); lia.
Qed.

Lemma drop_bytes_app (stem sfx : string) :
  drop_bytes (String.length stem) (stem +:+ sfx) = sfx.
Proof. induction stem as [|c stem IH]; simpl; [by destruct sfx | done]. Qed.

Lemma SliceFrom_after (stem sfx : string) :
  SliceFrom (stem +:+ "." +:+ sfx) (Z.of_nat (String.length stem) + 1) = sfx.
Proof.
  unfold SliceFrom.
  replace (Z.to_nat (Z.of_nat (String.length stem) + 1))
    with (String.length (stem +:+ ".")).
  - rewrite <- append_assoc. apply drop_bytes_app.
  - induction stem as [|c stem IH]; simpl; [done|]. rewrite IH. lia.
Qed.

End StringFacts.

(** ** The command document *)
Section ContentFacts.
Import clicommand.
Context {PluginConfig InstancePluginConfig : Type}.
Implicit Types content : DocumentContent PluginConfig InstancePluginConfig.

Lemma RuntimeConfig_empty content :
  size (RuntimeConfig content) = 0%nat ↔ RuntimeConfig content = ∅.
Proof. apply map_size_empty_iff. Qed.

Lemma MainSteps_empty content :
  length (MainSteps content) = 0%nat ↔ MainSteps content = [].
Proof. apply length_zero_iff_nil. Qed.

(** C6: [validateContent] accepts exactly the documents of schema version
    1.2 with a non-empty [runtimeConfig] and those of schema version 2.0
    with non-empty [mainSteps]; an empty [runtimeConfig] under 1.2 and
    empty [mainSteps] under 2.0 fail with their own messages, and every
    other schema version fails with a message that names it. *)
Theorem validateContent_accepts content :
  (validateContent content = None ↔
     (SchemaVersion content = "1.2" ∧ RuntimeConfig content ≠ ∅)
     ∨ (SchemaVersion content = "2.0" ∧ MainSteps content ≠ []))
  ∧ (SchemaVersion content = "1.2" → RuntimeConfig content = ∅ →
     validateContent content
     = Some (errorString "runtimeConfig cannot be empty"))
  ∧ (SchemaVersion content = "2.0" → MainSteps content = [] →
     validateContent content
     = Some (errorString "mainSteps cannot be empty"))
  ∧ (SchemaVersion content ≠ "1.2" → SchemaVersion content ≠ "2.0" →
     validateContent content
     = Some (errorString
               ("unsupported schema version " +:+ SchemaVersion content))).
Proof.
  unfold validateContent.
  pose proof (RuntimeConfig_empty content) as Hrc.
  pose proof (MainSteps_empty content) as Hms.
  repeat split.
  - repeat case_bool_decide; intros; simplify_eq; intuition congruence.
  - intros [[H12 Hne] | [H20 Hne]].
    + rewrite bool_decide_eq_true_2 by done.
      rewrite bool_decide_eq_false_2; [done | tauto].
    + rewrite bool_decide_eq_false_2 by (rewrite H20; discriminate).
      rewrite bool_decide_eq_true_2 by done.
      rewrite bool_decide_eq_false_2; [done | tauto].
  - intros H12 Hempty. rewrite bool_decide_eq_true_2 by done.
    rewrite bool_decide_eq_true_2; [done | tauto].
  - intros H20 Hempty.
    rewrite bool_decide_eq_false_2 by (rewrite H20; discriminate).
    rewrite bool_decide_eq_true_2 by done.
    rewrite bool_decide_eq_true_2; [done | tauto].
  - intros H12 H20. by rewrite !bool_decide_eq_false_2.
Qed.

End ContentFacts.

Lemma validateContent_accepts_witness :
  clicommand.validateContent document12 = None
  ∧ clicommand.validateContent document20
    = Some (errorString "mainSteps cannot be empty")
  ∧ clicommand.validateContent document03
    = Some (errorString "unsupported schema version 0.3").
Proof.
  split; [|split].
  - apply (proj1 (validateContent_accepts document12)).
    left. split; [reflexivity|]. vm_compute. discriminate.
  - apply (proj1 (proj2 (proj2 (validateContent_accepts document20))));
      reflexivity.
  - apply (proj2 (proj2 (proj2 (validateContent_accepts document03))));
      simpl; discriminate.
Defined.

(** ** The local command folders *)
Section MailboxFacts.
Import Strings clicommand.

Lemma matches_test (d file : string) :
  HasPrefix file d && Contains file "." = true ↔ matches d file.
Proof.
  unfold matches, has_dot.
  by rewrite andb_true_iff, HasPrefix_spec, Contains_spec.
Qed.

Lemma SliceFrom_LastIndex (file : string) :
  has_dot file →
  consumer_suffix file (SliceFrom file (LastIndex file "." + 1)).
Proof.
  intros Hdot.
  destruct (LastIndex_dot file) as [[_ Hno] | (stem & sfx & -> & -> & Hno)];
    [done|].
  rewrite SliceFrom_after. split; [by exists stem | done].
Qed.

Lemma firstProcessed_true (d : string) (files : list string) (id : string) :
  firstProcessed d files = (true, id) →
  ∃ before file after,
    files = before ++ file :: after
    ∧ Forall (λ f, ¬ matches d f) before
    ∧ matches d file
    ∧ consumer_suffix file id.
Proof.
  induction files as [|file files IH]; simpl; [done|].
  destruct (HasPrefix file d && Contains file ".") eqn:Htest.
  - intros [= <-]. apply matches_test in Htest.
    exists [], file, files. split; [done|]. split; [constructor|].
    split; [done|]. apply SliceFrom_LastIndex, Htest.
  - intros Hrest.
    destruct (IH Hrest) as (before & f & after & -> & Hbefore & Hf & Hid).
    exists (file :: before), f, after. split; [done|].
    split; [|done]. constructor; [|done].
    rewrite <- matches_test. by rewrite Htest.
Qed.

Lemma firstProcessed_false (d : string) (files : list string) (id : string) :
  firstProcessed d files = (false, id) →
  id = "" ∧ Forall (λ f, ¬ matches d f) files.
Proof.
  induction files as [|file files IH]; simpl.
  - intros [= <-]. by split.
  - destruct (HasPrefix file d && Contains file ".") eqn:Htest; [done|].
    intros Hrest. destruct (IH Hrest) as [-> Hall]. split; [done|].
    constructor; [|done]. rewrite <- matches_test. by rewrite Htest.
Qed.

Lemma isDocumentProcessed_run (fs : FileSystem) (d folder : string)
    (w : World) :
  isDocumentProcessed fs d folder w
  = (firstProcessed d (GetFileNames fs (clock w) folder).1,
     emit (EvGetFileNames folder) w).
Proof. reflexivity. Qed.

End MailboxFacts.

Section WaitFacts.
Import Strings clicommand.
Variables Root Submitted Invalid : string.

Local Abbreviation check := (check Submitted Invalid).
Local Abbreviation poll := (poll Submitted Invalid).
Local Abbreviation waitForSubmitStatus :=
  (waitForSubmitStatus Root Submitted Invalid).
Local Abbreviation attempt := (attempt Submitted Invalid).

Lemma firstProcessed_no_match (d : string) (files : list string) :
  Forall (λ f, ¬ matches d f) files → firstProcessed d files = (false, "").
Proof.
  induction 1 as [|file files Hfile _ IH]; simpl; [done|].
  destruct (HasPrefix file d && Contains file ".") eqn:Htest; [|done].
  by apply matches_test in Htest.
Qed.

Lemma check_run (fs : FileSystem) (d : string) (w : World) :
  check fs d w =
    let w1 := emit (EvGetFileNames Submitted) w in
    let w2 := emit (EvGetFileNames Invalid) w1 in
    let s := firstProcessed d (GetFileNames fs (clock w) Submitted).1 in
    let i := firstProcessed d (GetFileNames fs (clock w1) Invalid).1 in
    if s.1 then (Some (submitted s.2), w1)
    else if i.1 then (Some invalid, w2) else (None, w2).
Proof.
  unfold clicommand.check, mbind, M_bind.
  rewrite isDocumentProcessed_run.
  destruct (firstProcessed d (GetFileNames fs (clock w) Submitted).1)
    as [[] id]; simpl; [done|].
  by destruct (firstProcessed d _) as [[] id'].
Qed.

Lemma check_none (fs : FileSystem) (d : string) (w : World) :
  no_match fs d (clock w) Submitted →
  no_match fs d (S (clock w)) Invalid →
  check fs d w
  = (None, emit (EvGetFileNames Invalid) (emit (EvGetFileNames Submitted) w)).
Proof.
  intros Hs Hi. rewrite check_run. cbv zeta.
  rewrite (firstProcessed_no_match _ _ Hs). simpl.
  by rewrite (firstProcessed_no_match _ _ Hi).
Qed.

Lemma check_some (fs : FileSystem) (d : string) (w w' : World)
    (result : string) :
  check fs d w = (Some result, w') →
  result = invalid
  ∨ ∃ w1 id, (isDocumentProcessed fs d Submitted w1).1 = (true, id)
             ∧ result = submitted id.
Proof.
  rewrite check_run. cbv zeta.
  destruct (firstProcessed d (GetFileNames fs (clock w) Submitted).1)
    as [[] id] eqn:Hs; simpl.
  - intros [= <- _]. right. by exists w, id.
  - clear Hs.
    destruct (firstProcessed d _) as [[] id']; simpl; intros [= ]; subst.
    by left.
Qed.

Lemma poll_unfold (fs : FileSystem) (d : string) (n : nat) (w : World) :
  poll fs d (S n) w =
    match check fs d w with
    | (Some result, w') => (Some result, w')
    | (None, w') => poll fs d n (emit (EvSleep (500 * Millisecond)) w')
    end.
Proof.
  cbn [clicommand.poll]. unfold mbind at 1, M_bind at 1.
  destruct (check fs d w) as [[result|] w']; reflexivity.
Qed.

(** [n] attempts in a row that find nothing. *)
Lemma poll_none (fs : FileSystem) (d : string) (n : nat) (w : World) :
  (∀ k, (k < n)%nat →
        no_match fs d (clock w + 3 * k) Submitted
        ∧ no_match fs d (clock w + 3 * k + 1) Invalid) →
  poll fs d n w
  = (None, {| clock := clock w + 3 * n;
              trace := trace w ++ concat (replicate n attempt) |}).
Proof.
  revert w. induction n as [|n IH]; intros w Hno.
  - simpl. unfold mret, M_ret. destruct w as [c t]; simpl.
    by rewrite Nat.add_0_r, app_nil_r.
  - rewrite poll_unfold.
    destruct (Hno 0%nat) as [Hs Hi]; [lia|].
    rewrite Nat.mul_0_r, Nat.add_0_r in Hs, Hi.
    rewrite Nat.add_1_r in Hi.
    rewrite (check_none _ _ _ Hs Hi).
    rewrite IH.
    + unfold emit; simpl. f_equal. f_equal; [lia|].
      by rewrite <- !app_assoc.
    + intros k Hk. unfold emit; cbn [clock].
      destruct (Hno (S k)) as [Hs' Hi']; [lia|].
      replace (S (S (S (clock w))) + 3 * k)%nat
        with (clock w + 3 * S k)%nat by lia.
      done.
Qed.

Lemma poll_some (fs : FileSystem) (d : string) (n : nat) (w w' : World)
    (result : string) :
  poll fs d n w = (Some result, w') →
  result = invalid
  ∨ ∃ w1 id, (isDocumentProcessed fs d Submitted w1).1 = (true, id)
             ∧ result = submitted id.
Proof.
  revert w. induction n as [|n IH]; intros w; [done|].
  rewrite poll_unfold.
  destruct (check fs d w) as [[r|] w1] eqn:Hcheck.
  - intros [= <- _]. by eapply check_some.
  - apply IH.
Qed.

Lemma waitForSubmitStatus_unfold (fs : FileSystem) (d : string) (w : World) :
  waitForSubmitStatus fs d w =
    match poll fs d 10 w with
    | (Some result, w') => (result, w')
    | (None, w') =>
        let w'' := emit (EvDeleteFile (Filepath.Join [Root; d])) w' in
        match check fs d w'' with
        | (Some result, w3) => (result, w3)
        | (None, w3) => (timedOut, w3)
        end
    end.
Proof.
  unfold clicommand.waitForSubmitStatus. unfold mbind at 1, M_bind at 1.
  destruct (poll fs d 10 w) as [[result|] w']; [reflexivity|].
  unfold mbind, M_bind, deleteFile.
  destruct (check fs d _) as [[result|] w3]; reflexivity.
Qed.

(** What [waitForSubmitStatus] does once ten attempts have found
    nothing: the file system enters through the two final listings
    only. *)
Lemma waitForSubmitStatus_exhausted (fs : FileSystem) (d : string)
    (w : World) :
  (∀ k, (k < 10)%nat →
        no_match fs d (clock w + 3 * k) Submitted
        ∧ no_match fs d (clock w + 3 * k + 1) Invalid) →
  let s := firstProcessed d (GetFileNames fs (clock w + 31) Submitted).1 in
  let i := firstProcessed d (GetFileNames fs (clock w + 32) Invalid).1 in
  waitForSubmitStatus fs d w
  = (if s.1 then submitted s.2 else if i.1 then invalid else timedOut,
     {| clock := clock w + (if s.1 then 32 else 33);
        trace := trace w ++ concat (replicate 10 attempt)
                   ++ [EvDeleteFile (Filepath.Join [Root; d]);
                       EvGetFileNames Submitted]
                   ++ (if s.1 then [] else [EvGetFileNames Invalid]) |}).
Proof.
  intros Hno s i. rewrite waitForSubmitStatus_unfold.
  rewrite (poll_none _ _ _ _ Hno). cbv zeta.
  rewrite check_run. cbv zeta. unfold emit. cbn [clock trace].
  replace (S (clock w + 3 * 10))%nat with (clock w + 31)%nat by lia.
  replace (S (clock w + 31))%nat with (clock w + 32)%nat by lia.
  fold s i.
  destruct (s.1); [|destruct (i.1)];
    (f_equal; try done; f_equal; first [lia | by rewrite <- !app_assoc]).
Qed.

(** C4: when the ten attempts, half a second apart, have found nothing,
    [waitForSubmitStatus] deletes the pending file of the document, and,
    whatever the deletion returns, lists the submitted folder and then
    the invalid folder once more; a match of this last look is reported
    as success or as invalid, and only without one the result is the
    time-out. *)
Theorem waitForSubmitStatus_final_check
    (ls : nat → string → list string * option error)
    (del : nat → string → option error) (d : string) (w : World) :
  let fs := {| GetFileNames := ls; DeleteFile := del |} in
  (∀ k, (k < 10)%nat →
        no_match fs d (clock w + 3 * k) Submitted
        ∧ no_match fs d (clock w + 3 * k + 1) Invalid) →
  let s := firstProcessed d (ls (clock w + 31)%nat Submitted).1 in
  let i := firstProcessed d (ls (clock w + 32)%nat Invalid).1 in
  (waitForSubmitStatus fs d w).1
  = (if s.1 then submitted s.2 else if i.1 then invalid else timedOut)
  ∧ trace (waitForSubmitStatus fs d w).2
    = trace w ++ concat (replicate 10 attempt)
        ++ [EvDeleteFile (Filepath.Join [Root; d]);
            EvGetFileNames Submitted]
        ++ (if s.1 then [] else [EvGetFileNames Invalid]).
Proof.
  intros fs Hno s i.
  by rewrite (waitForSubmitStatus_exhausted fs d w Hno).
Qed.

(** C5: [isDocumentProcessed] finds a document exactly when a name of the
    listing starts with the document name and has a separator; the id it
    returns is what follows the last separator of the first such name;
    and a success reported by [waitForSubmitStatus] carries exactly an id
    so obtained from the submitted folder. *)
Theorem isDocumentProcessed_consumerId (fs : FileSystem)
    (d folder : string) (w : World) :
  let files := (GetFileNames fs (clock w) folder).1 in
  let r := (isDocumentProcessed fs d folder w).1 in
  (r.1 = true ↔ ∃ file, file ∈ files ∧ matches d file)
  ∧ (r.1 = true →
     ∃ before file after,
       files = before ++ file :: after
       ∧ Forall (λ f, ¬ matches d f) before
       ∧ matches d file
       ∧ consumer_suffix file r.2)
  ∧ (∀ id, (waitForSubmitStatus fs d w).1 = submitted id →
     ∃ w1, (isDocumentProcessed fs d Submitted w1).1 = (true, id)).
Proof.
  intros files r.
  assert (r = firstProcessed d files) as Er by reflexivity.
  clearbody r. split; [|split].
  - split.
    + intros Hr. destruct r as [processed id]. simpl in Hr. subst processed.
      destruct (firstProcessed_true _ _ _ (eq_sym Er))
        as (before & file & after & Hfiles & _ & Hm & _).
      exists file. split; [|done]. rewrite Hfiles. set_solver.
    + intros (file & Hin & Hm).
      destruct r as [[] id]; [done|].
      destruct (firstProcessed_false _ _ _ (eq_sym Er)) as [_ Hall].
      rewrite Forall_forall in Hall. by destruct (Hall file Hin).
  - intros Hr. destruct r as [processed id]. simpl in Hr. subst processed.
    by apply firstProcessed_true.
  - intros id. rewrite waitForSubmitStatus_unfold.
    destruct (poll fs d 10 w) as [[result|] w'] eqn:Hpoll; cbn [fst].
    + intros ->. apply poll_some in Hpoll as [Hinv | (w1 & id' & H1 & Heq)].
      * discriminate.
      * exists w1. by simplify_eq.
    + cbv zeta.
      destruct (check fs d _) as [[result|] w3] eqn:Hcheck; cbn [fst].
      * intros ->.
        apply check_some in Hcheck as [Hinv | (w1 & id' & H1 & Heq)].
        -- discriminate.
        -- exists w1. by simplify_eq.
      * discriminate.
Qed.

(** C10: [isDocumentProcessed] drops the error of a listing, and a
    listing that fails has no names: it counts as no match, and when
    every listing fails [waitForSubmitStatus] ends with the time-out
    like for a document nobody picked up. *)
Theorem listing_failure_is_no_match
    (ls : nat → string → list string * option error)
    (del : nat → string → option error) (d : string) (w : World) :
  let fs := {| GetFileNames := ls; DeleteFile := del |} in
  (∀ t folder, (ls t folder).2 ≠ None → (ls t folder).1 = []) →
  (∀ folder w0, (ls (clock w0) folder).2 ≠ None →
                (isDocumentProcessed fs d folder w0).1 = (false, ""))
  ∧ ((∀ t folder, (ls t folder).2 ≠ None) →
     (waitForSubmitStatus fs d w).1 = timedOut).
Proof.
  intros fs Hnil. split.
  - intros folder w0 Herr. rewrite isDocumentProcessed_run. cbn [fst].
    cbn [GetFileNames fs]. by rewrite (Hnil _ _ Herr).
  - intros Herr.
    assert (∀ t folder, no_match fs d t folder) as Hno.
    { intros t folder. unfold no_match. cbn [GetFileNames fs].
      rewrite (Hnil _ _ (Herr t folder)). constructor. }
    rewrite waitForSubmitStatus_exhausted by (intros; split; apply Hno).
    cbn [GetFileNames fs fst]. by rewrite !Hnil by apply Herr.
Qed.

End WaitFacts.

(** ** The input of [send-offline-command] *)
Section InputFacts.
Import clicommand.
Variable FormatFlag : string → string.
Variables ValidJson ValidUrl : string → bool.

Local Abbreviation validateSendCommandInput :=
  (validateSendCommandInput FormatFlag ValidJson ValidUrl).
Local Abbreviation present := (present ValidJson ValidUrl).
Local Abbreviation message := (message FormatFlag).

Lemma elem_of_unsupported (order validation : list string) (m : string) :
  m ∈ foldl (unsupported FormatFlag) validation order
  ↔ m ∈ validation
    ∨ ∃ key, key ∈ order ∧ key ≠ sendCommandContent
             ∧ m = "unknown parameter " +:+ FormatFlag key.
Proof.
  revert validation.
  induction order as [|key order IH]; intros validation; simpl.
  - split; [by left | intros [? | (key & Hin & _)]; [done | set_solver]].
  - rewrite IH. unfold unsupported. case_bool_decide as Hkey.
    + rewrite elem_of_app, list_elem_of_singleton. split.
      * intros [[? | ->] | (k & Hin & Hne & ->)].
        -- by left.
        -- right. exists key. split; [apply list_elem_of_here | done].
        -- right. exists k. split; [by apply list_elem_of_further | done].
      * intros [? | (k & Hin & Hne & ->)]; [by left; left|].
        apply elem_of_cons in Hin as [-> | Hin]; [by left; right|].
        right. by exists k.
    + split.
      * intros [? | (k & Hin & Hne & ->)]; [by left|].
        right. exists k. split; [by apply list_elem_of_further | done].
      * intros [? | (k & Hin & Hne & ->)]; [by left|].
        apply elem_of_cons in Hin as [-> | Hin]; [done|].
        right. by exists k.
Qed.

Lemma elem_of_range_order (parameters : gmap string (list string))
    (order : list string) (key : string) :
  range_order parameters order →
  key ∈ order ↔ is_Some (parameters !! key).
Proof.
  unfold range_order. intros ->. rewrite list_elem_of_fmap. split.
  - intros ([k values] & -> & Hin). apply elem_of_map_to_list in Hin.
    by exists values.
  - intros [values Hvalues]. exists (key, values). split; [done|].
    by apply elem_of_map_to_list.
Qed.

(** The input as the claim of completeness needs it: without
    subcommands. *)
Lemma validateSendCommandInput_nil (order : list string)
    (parameters : gmap string (list string)) :
  validateSendCommandInput order [] parameters
  = foldl (unsupported FormatFlag)
      match parameters !! sendCommandContent with
      | None => [message [] MissingContent]
      | Some [val] =>
          if negb (ValidJson val) && negb (ValidUrl val)
          then [message [] NeitherJsonNorUrl] else []
      | Some _ => [message [] ValueCount]
      end order.
Proof.
  unfold clicommand.validateSendCommandInput. simpl.
  by destruct (parameters !! sendCommandContent) as [[|val []]|].
Qed.

(** C1, as the code has it: with a subcommand the result is the message
    about the subcommand and an empty line, and nothing else is looked
    at; without subcommands every violation of the input has its message
    in the result, and every message of the result is that of a violation
    of the input. *)
Theorem validateSendCommandInput_messages (order subcommands : list string)
    (parameters : gmap string (list string)) :
  range_order parameters order →
  (subcommands ≠ [] →
   validateSendCommandInput order subcommands parameters
   = [message subcommands Subcommands; ""])
  ∧ (subcommands = [] →
     (∀ v, present subcommands parameters v →
           message subcommands v
           ∈ validateSendCommandInput order subcommands parameters)
     ∧ (∀ m, m ∈ validateSendCommandInput order subcommands parameters →
             ∃ v, present subcommands parameters v
                  ∧ m = message subcommands v)).
Proof.
  intros Horder. split.
  - intros Hsub. unfold clicommand.validateSendCommandInput.
    destruct subcommands; [done|]. rewrite bool_decide_eq_true_2; [done|].
    simpl; lia.
  - intros ->. rewrite validateSendCommandInput_nil. split.
    + intros v Hv. apply elem_of_unsupported.
      destruct v as [| | | |key]; simpl in Hv.
      * done.
      * left. rewrite Hv. set_solver.
      * left. destruct Hv as (values & -> & Hlen).
        destruct values as [|val []]; simpl in *; try done; set_solver.
      * left. destruct Hv as (val & -> & -> & ->). simpl. set_solver.
      * right. destruct Hv as [Hsome Hne]. exists key.
        by rewrite (elem_of_range_order _ _ _ Horder).
    + intros m Hm. apply elem_of_unsupported in Hm
        as [Hm | (key & Hin & Hne & ->)].
      * destruct (parameters !! sendCommandContent)
          as [[|val [|val' values]]|] eqn:Hcontent.
        -- apply list_elem_of_singleton in Hm as ->.
           exists ValueCount. split; [|done]. by exists [].
        -- destruct (ValidJson val) eqn:Hjson; simpl in Hm; [set_solver|].
           destruct (ValidUrl val) eqn:Hurl; simpl in Hm; [set_solver|].
           apply list_elem_of_singleton in Hm as ->.
           exists NeitherJsonNorUrl. split; [|done]. by exists val.
        -- apply list_elem_of_singleton in Hm as ->.
           exists ValueCount. split; [|done].
           by exists (val :: val' :: values).
        -- apply list_elem_of_singleton in Hm as ->.
           by exists MissingContent.
      * exists (UnknownParameter key). split; [|done]. split; [|done].
        by rewrite <- (elem_of_range_order _ _ _ Horder).
Qed.

End InputFacts.

(** C1 fails as stated: with a subcommand, the messages of the other
    violations of the input are not in the result. *)
Lemma validateSendCommandInput_partial :
  clicommand.range_order status_verbose.2 ["verbose"]
  ∧ present braces scheme status_verbose.1 status_verbose.2
      (UnknownParameter "verbose")
  ∧ present braces scheme status_verbose.1 status_verbose.2 MissingContent
  ∧ clicommand.validateSendCommandInput dashes braces scheme ["verbose"]
      status_verbose.1 status_verbose.2
    = ["send-offline-command does not support subcommand [status]"; ""]
  ∧ (message dashes status_verbose.1 (UnknownParameter "verbose")
     ∉ clicommand.validateSendCommandInput dashes braces scheme ["verbose"]
         status_verbose.1 status_verbose.2)
  ∧ (message dashes status_verbose.1 MissingContent
     ∉ clicommand.validateSendCommandInput dashes braces scheme ["verbose"]
         status_verbose.1 status_verbose.2).
Proof.
  split; [|split; [|split; [|split; [|split]]]].
  - unfold clicommand.range_order, status_verbose. simpl.
    by rewrite map_to_list_singleton.
  - split; [by eexists | discriminate].
  - reflexivity.
  - reflexivity.
  - vm_compute. not_in_list.
  - vm_compute. not_in_list.
Qed.

Lemma validateSendCommandInput_messages_witness :
  clicommand.validateSendCommandInput dashes braces scheme ["verbose"]
    status_verbose.1 status_verbose.2
  = ["send-offline-command does not support subcommand [status]"; ""]
  ∧ "expected 1 value for parameter --content"
    ∈ clicommand.validateSendCommandInput dashes braces scheme
        ["verbose"; "content"] [] two_contents
  ∧ "unknown parameter --verbose"
    ∈ clicommand.validateSendCommandInput dashes braces scheme
        ["verbose"; "content"] [] two_contents.
Proof.
  split.
  - apply (validateSendCommandInput_messages dashes braces scheme
             ["verbose"] status_verbose.1 status_verbose.2).
    + unfold clicommand.range_order, status_verbose. simpl.
      by rewrite map_to_list_singleton.
    + discriminate.
  - assert (clicommand.range_order two_contents ["verbose"; "content"])
      as Horder.
    { unfold clicommand.range_order, two_contents.
      rewrite map_to_list_insert by done.
      by rewrite map_to_list_singleton. }
    destruct (validateSendCommandInput_messages dashes braces scheme
                ["verbose"; "content"] [] two_contents Horder)
      as [_ Hnil].
    destruct (Hnil eq_refl) as [Hall _]. split.
    + apply (Hall ValueCount). exists ["{}"; "{}"]. split; [done|].
      simpl. lia.
    + apply (Hall (UnknownParameter "verbose")). split; [by eexists|].
      discriminate.
Defined.

(** ** The folders on a concrete run *)

Lemma waitForSubmitStatus_final_check_witness :
  (clicommand.waitForSubmitStatus localCommandRoot localCommandRootSubmitted
     localCommandRootInvalid late_agent "8c2f" clicommand.start).1
  = "successfully submitted with command id: 01".
Proof.
  refine (proj1 (waitForSubmitStatus_final_check localCommandRoot
                   localCommandRootSubmitted localCommandRootInvalid
                   (clicommand.GetFileNames late_agent)
                   (clicommand.DeleteFile late_agent)
                   "8c2f" clicommand.start _)).
  intros k Hk.
  do 10 (destruct k as [|k]; [split; vm_compute; constructor|]).
  lia.
Defined.

Lemma isDocumentProcessed_consumerId_witness :
  ∃ file,
    file ∈ ["1f0e.77"; "8c2f"; "8c2f.7d1a.01"] ∧ matches "8c2f" file.
Proof.
  apply (proj1 (proj1 (isDocumentProcessed_consumerId localCommandRoot
                         localCommandRootSubmitted localCommandRootInvalid
                         late_agent "8c2f" localCommandRootSubmitted
                         {| clicommand.clock := 31;
                            clicommand.trace := [] |}))).
  reflexivity.
Defined.

Lemma listing_failure_is_no_match_witness :
  (clicommand.waitForSubmitStatus localCommandRoot localCommandRootSubmitted
     localCommandRootInvalid unreadable "8c2f" clicommand.start).1
  = "failed to submit document: timed out".
Proof.
  refine (proj2 (listing_failure_is_no_match localCommandRoot
                   localCommandRootSubmitted localCommandRootInvalid
                   (clicommand.GetFileNames unreadable)
                   (clicommand.DeleteFile unreadable)
                   "8c2f" clicommand.start _) _).
  - reflexivity.
  - discriminate.
Defined.

(** ** The systemd decision *)
Section SystemDFacts.
Import updateutil.
Variable VersionCompare : string → string → Z + error.

Lemma initialised_initial : initialised initial.
Proof. intros Honce. discriminate. Qed.

Lemma getMinimumVersionForSystemD_table (g : Globals) :
  initialised g →
  (getMinimumVersionForSystemD g).1 = SystemDVersionTable
  ∧ initialised (getMinimumVersionForSystemD g).2
  ∧ once (getMinimumVersionForSystemD g).2 = true.
Proof.
  unfold getMinimumVersionForSystemD, initialised. intros Hg.
  destruct (once g) eqn:Honce; simpl.
  - rewrite Honce. auto.
  - repeat split; intros; apply map_eq; intros key;
      unfold SystemDVersionTable; simpl;
      unfold PlatformUbuntu, PlatformRedHat, PlatformCentOS;
      rewrite !lookup_insert; repeat case_decide; done.
Qed.

Lemma SystemDVersionTable_lookup (platform threshold : string) :
  SystemDVersionTable !! platform = Some threshold ↔
    (platform = "centos" ∧ threshold = "7")
    ∨ (platform = "red hat" ∧ threshold = "7")
    ∨ (platform = "ubuntu" ∧ threshold = "15").
Proof.
  unfold SystemDVersionTable. simpl. rewrite !lookup_insert.
  repeat case_decide; subst; rewrite ?lookup_empty;
    intuition congruence.
Qed.

(** C8: [IsPlatformUsingSystemD] answers true exactly when the platform
    of the context is a key of the table and [VersionCompare] of the
    platform version with the threshold of the table is at least zero;
    a platform that is not in the table, and Windows is not, gives false
    without an error; a comparison that fails gives false with its
    error. *)
Theorem IsPlatformUsingSystemD_table (i : InstanceContext) (g : Globals) :
  initialised g →
  let r := (IsPlatformUsingSystemD VersionCompare i g).1 in
  (r.1 = true ↔
     ∃ threshold compareResult,
       SystemDVersionTable !! Platform i = Some threshold
       ∧ VersionCompare (PlatformVersion i) threshold = inl compareResult
       ∧ 0 ≤ compareResult)
  ∧ (SystemDVersionTable !! Platform i = None → r = (false, None))
  ∧ (Platform i = PlatformWindows → r = (false, None))
  ∧ (∀ threshold err,
       SystemDVersionTable !! Platform i = Some threshold →
       VersionCompare (PlatformVersion i) threshold = inr err →
       r = (false, Some err))
  ∧ initialised (IsPlatformUsingSystemD VersionCompare i g).2.
Proof.
  intros Hg r. subst r. unfold IsPlatformUsingSystemD.
  destruct (getMinimumVersionForSystemD_table g Hg) as (Htable & Hg' & _).
  destruct (getMinimumVersionForSystemD g) as [table g']. simpl in *.
  subst table.
  assert (SystemDVersionTable !! PlatformWindows = None) as Hwindows
    by reflexivity.
  destruct (SystemDVersionTable !! Platform i) as [val|] eqn:Hval.
  - destruct (VersionCompare (PlatformVersion i) val)
      as [compareResult|err] eqn:Hcompare.
    + destruct (Z.leb_spec 0 compareResult) as [Hle|Hlt]; simpl.
      * repeat split; try done.
        -- intros _. by exists val, compareResult.
        -- intros Hw. rewrite Hw in Hval. congruence.
        -- intros threshold err [= <-]. congruence.
      * repeat split; try done.
        -- intros (threshold & c & [= <-] & Hc & Hle).
           rewrite Hcompare in Hc. injection Hc as <-. lia.
        -- intros threshold err [= <-]. congruence.
    + simpl. repeat split; try done.
      * intros (threshold & c & [= <-] & Hc & Hle). congruence.
      * intros Hw. rewrite Hw in Hval. congruence.
      * intros threshold err' [= <-]. congruence.
  - simpl. repeat split; try done.
    intros (threshold & c & ? & _). done.
Qed.

End SystemDFacts.

(** ** Fields of a command line *)
Section FieldsFacts.
Import Strings.

Lemma Fields_go_some (skip : nat) (w s : string) :
  Fields_go skip (Some w) s ≠ [].
Proof.
  revert skip w. induction s as [|c s IH]; intros skip w; [done|].
  cbn [Fields_go]. destruct skip as [|k]; [|apply IH].
  destruct (space_width (String c s)); [apply IH | done].
Qed.

Lemma Fields_go_space (sp s : string) :
  sp ∈ white_space → Fields_go 0 None (sp +:+ s) = Fields_go 0 None s.
Proof.
  intros Hsp. unfold white_space in Hsp.
  repeat (apply elem_of_cons in Hsp as [-> | Hsp]; [reflexivity|]).
  by apply not_elem_of_nil in Hsp.
Qed.

Lemma blank_Fields (s : string) : blank s → Fields s = [].
Proof.
  unfold Fields. induction 1 as [|sp s Hsp _ IH]; [done|].
  by rewrite Fields_go_space.
Qed.

Lemma byte_of (c : ascii) (b : N) : N_of_ascii c = b → c = ascii_of_N b.
Proof. intros <-. by rewrite ascii_N_embedding. Qed.

(** A positive [space_width] is the length of an encoding of white space
    at the head of the string. *)
Lemma space_width_head (s : string) (w : nat) :
  space_width s = S w →
  ∃ sp rest, s = sp +:+ rest ∧ sp ∈ white_space.
Proof.
  unfold space_width.
  destruct s as [|c0 s1]; [done|].
  remember (N_of_ascii c0) as b0 eqn:E0. symmetry in E0.
  apply byte_of in E0.
  destruct ((9 <=? b0) && (b0 <=? 13) || (b0 =? 32))%N eqn:H1.
  { intros _. exists (String c0 ""), s1. split; [done|]. tests H1.
    - subst c0.
      match goal with Hlo : (9 ≤ b0)%N |- _ => upwards Hlo end. lia.
    - subst. in_list. }
  clear H1. destruct s1 as [|c1 s2]; [done|].
  remember (N_of_ascii c1) as b1 eqn:E1. symmetry in E1.
  apply byte_of in E1.
  destruct ((b0 =? 194) && ((b1 =? 133) || (b1 =? 160)))%N eqn:H2.
  { intros _. exists (String c0 (String c1 "")), s2. split; [done|].
    tests H2; subst; in_list. }
  clear H2. destruct s2 as [|c2 s3]; [done|].
  remember (N_of_ascii c2) as b2 eqn:E2. symmetry in E2.
  apply byte_of in E2.
  match goal with |- (if ?cond then _ else _) = _ → _ =>
    destruct cond eqn:H3; [|done] end.
  intros _. exists (String c0 (String c1 (String c2 ""))), s3.
  split; [done|]. tests H3; try (subst; in_list).
  subst c0 c1 c2 b0 b1.
  match goal with Hlo : (128 ≤ b2)%N |- _ => upwards Hlo end. lia.
Qed.

Lemma length_append (a b : string) :
  String.length (a +:+ b) = (String.length a + String.length b)%nat.
Proof. induction a as [|c a IH]; simpl; [done | by rewrite IH]. Qed.

Lemma white_space_length (sp : string) :
  sp ∈ white_space → (0 < String.length sp)%nat.
Proof.
  intros Hsp. unfold white_space in Hsp.
  repeat (apply elem_of_cons in Hsp as [-> | Hsp]; [simpl; lia|]).
  by apply not_elem_of_nil in Hsp.
Qed.

Lemma Fields_blank (s : string) : Fields s = [] → blank s.
Proof.
  unfold Fields.
  remember (String.length s) as n eqn:Hn. revert s Hn.
  induction (lt_wf n) as [n _ IH]. intros s Hn.
  destruct s as [|c s']; [constructor|].
  destruct (space_width (String c s')) as [|w] eqn:Hw.
  - cbn [Fields_go]. rewrite Hw. intros Hnil.
    by apply Fields_go_some in Hnil.
  - destruct (space_width_head _ _ Hw) as (sp & rest & Hs & Hsp).
    rewrite Hs, Fields_go_space by done. intros Hnil.
    constructor; [done|].
    apply (IH (String.length rest)); [|done..].
    pose proof (white_space_length _ Hsp).
    rewrite Hn, Hs, length_append. lia.
Qed.

Lemma Fields_nil (s : string) : Fields s = [] ↔ blank s.
Proof. split; [apply Fields_blank | apply blank_Fields]. Qed.

End FieldsFacts.

(** ** Output paths *)
Section PathFacts.
Import Strings Filepath updateutil.

Lemma split_go_app (cur a b : string) :
  split_go cur (a +:+ "/" +:+ b) = split_go cur a ++ split_go "" b.
Proof.
  revert cur. induction a as [|c a IH]; intros cur; [done|].
  simpl. destruct (Ascii.eqb c "/"); by rewrite IH.
Qed.

Lemma Join_snoc (elems : list string) (e sep : string) :
  Strings.Join (elems ++ [e]) sep
  = match elems with
    | [] => e
    | _ => Strings.Join elems sep +:+ sep +:+ e
    end.
Proof.
  destruct elems as [|e0 elems]; [done|].
  revert e0. induction elems as [|e1 elems IH]; intros e0; [done|].
  change (Strings.Join ((e0 :: e1 :: elems) ++ [e]) sep)
    with (e0 +:+ sep +:+ Strings.Join ((e1 :: elems) ++ [e]) sep).
  rewrite IH.
  change (Strings.Join (e0 :: e1 :: elems) sep)
    with (e0 +:+ sep +:+ Strings.Join (e1 :: elems) sep).
  by rewrite !append_assoc.
Qed.

Lemma append_eq_nil (a b : string) : a +:+ b = "" → b = "".
Proof. by destruct a. Qed.

Lemma Clean_nonempty (path : string) : Clean path ≠ "".
Proof.
  unfold Clean. destruct (HasPrefix path "/"); [done|].
  by case_bool_decide.
Qed.

(** [Clean] keeps a file name proper at the end of a path. *)
Lemma Clean_last (dir name : string) :
  dir ≠ "" → simple_name name →
  Clean (dir +:+ "/" +:+ name) = cleaned_prefix dir +:+ name.
Proof.
  intros Hdir (Hsplit & Hne & Hdot & Hdots). unfold Clean, cleaned_prefix.
  assert (HasPrefix (dir +:+ "/" +:+ name) "/" = HasPrefix dir "/") as ->
    by (by destruct dir).
  unfold split. rewrite split_go_app. fold (split name) (split dir).
  rewrite Hsplit, foldl_app.
  set (rooted := HasPrefix dir "/").
  set (out := foldl (clean_step rooted) [] (split dir)).
  cbn [foldl].
  assert (clean_step rooted out name = name :: out) as ->.
  { unfold clean_step.
    rewrite bool_decide_eq_false_2 by (intros [?|?]; done).
    by rewrite bool_decide_eq_false_2. }
  cbn [rev]. rewrite Join_snoc.
  destruct rooted.
  - destruct (rev out); [done|]. by rewrite !append_assoc.
  - destruct (rev out) as [|e elems].
    + by rewrite bool_decide_eq_false_2.
    + rewrite bool_decide_eq_false_2; [by rewrite !append_assoc|].
      by intros Hnil%append_eq_nil%append_eq_nil.
Qed.

Lemma UpdateOutputDirectory_nonempty (updateRoot : string) :
  UpdateOutputDirectory updateRoot ≠ "".
Proof.
  unfold UpdateOutputDirectory, Filepath.Join. cbn [filter list_filter].
  destruct (decide (DefaultOutputFolder ≠ "")) as [_|Hn]; [|by destruct Hn].
  destruct (decide (updateRoot ≠ "")); apply Clean_nonempty.
Qed.

Lemma Join_file (dir name : string) :
  dir ≠ "" → simple_name name →
  Filepath.Join [dir; name] = cleaned_prefix dir +:+ name.
Proof.
  intros Hdir Hname. unfold Filepath.Join. cbn [filter list_filter].
  rewrite decide_True by done.
  rewrite decide_True by (by destruct Hname as (_ & ? & _)).
  by apply Clean_last.
Qed.

(** The two default paths are the files [stdout] and [stderr] of one
    directory. *)
Lemma default_paths (updateRoot : string) :
  let dir := cleaned_prefix (UpdateOutputDirectory updateRoot) in
  UpdateStandOutPath updateRoot "" = dir +:+ "stdout"
  ∧ UpdateStandErrPath updateRoot "" = dir +:+ "stderr".
Proof.
  pose proof (UpdateOutputDirectory_nonempty updateRoot).
  unfold UpdateStandOutPath, UpdateStandErrPath.
  unfold DefaultStandOut, DefaultStandErr.
  rewrite bool_decide_eq_true_2 by done.
  split; apply Join_file; try done; by repeat split.
Qed.

End PathFacts.

(** ** Running a command *)
Section ExecFacts.
Import Strings updateutil.
Variable CommandStoppedPreemptivelyExitCode : Z.
Variable ReadWriteExecuteAccess : Z.
Variable setPlatformSpecificCommand : list string → list string.
Variable prepareProcess : Cmd → Cmd.

Local Abbreviation setExeOutErr := (setExeOutErr ReadWriteExecuteAccess).
Local Abbreviation ExeCommand :=
  (ExeCommand CommandStoppedPreemptivelyExitCode ReadWriteExecuteAccess
     setPlatformSpecificCommand prepareProcess).

(** The two files of [setExeOutErr] when both can be opened. *)
Lemma setExeOutErr_opens (os : OS) (updaterRoot stdOut stdErr : string)
    (w : World) :
  mkDirAll os (UpdateOutputDirectory updaterRoot) ReadWriteExecuteAccess
  = None →
  openFile os (opened w) (UpdateStandOutPath updaterRoot stdOut)
    flags ownerReadWrite = None →
  openFile os (S (opened w)) (UpdateStandOutPath updaterRoot stdErr)
    flags ownerReadWrite = None →
  let out := {| fd := opened w;
                name := UpdateStandOutPath updaterRoot stdOut |} in
  let err := {| fd := S (opened w);
                name := UpdateStandOutPath updaterRoot stdErr |} in
  setExeOutErr os updaterRoot stdOut stdErr w
  = ((Some out, Some err, None),
     {| opened := S (S (opened w));
        open_files := open_files w ++ [out; err] |}).
Proof.
  intros Hdir Hout Herr out err.
  unfold updateutil.setExeOutErr, OpenFile. fold flags.
  rewrite Hdir, Hout. cbn [opened open_files]. rewrite Herr.
  by rewrite <- app_assoc.
Qed.

(** The stdout file stays in the world when the stderr file cannot be
    opened. *)
Lemma setExeOutErr_second_fails (os : OS)
    (updaterRoot stdOut stdErr : string) (w : World) (e : error) :
  mkDirAll os (UpdateOutputDirectory updaterRoot) ReadWriteExecuteAccess
  = None →
  openFile os (opened w) (UpdateStandOutPath updaterRoot stdOut)
    flags ownerReadWrite = None →
  openFile os (S (opened w)) (UpdateStandOutPath updaterRoot stdErr)
    flags ownerReadWrite = Some e →
  let out := {| fd := opened w;
                name := UpdateStandOutPath updaterRoot stdOut |} in
  setExeOutErr os updaterRoot stdOut stdErr w
  = ((Some out, None, Some e),
     {| opened := S (S (opened w));
        open_files := open_files w ++ [out] |}).
Proof.
  intros Hdir Hout Herr out.
  unfold updateutil.setExeOutErr, OpenFile. fold flags.
  rewrite Hdir, Hout. cbn [opened open_files]. by rewrite Herr.
Qed.

(** [ExeCommand] under supervision, once the command line is shaped and
    the output files are open. *)
Lemma ExeCommand_supervised (os : OS)
    (cmd workingDir updaterRoot stdOut stdErr : string) (w w1 : World)
    (name : string) (arg : list string) (out err : option File) :
  setPlatformSpecificCommand (Fields cmd) = name :: arg →
  setExeOutErr os updaterRoot stdOut stdErr w = ((out, err, None), w1) →
  let command :=
    withOutput (withDir (execCommand name arg) workingDir) out err in
  ExeCommand os cmd workingDir updaterRoot stdOut stdErr false w
  = (match cmdStart os command with
     | Some e => Return (Some e)
     | None =>
         match cmdWait os command with
         | Some (ExitError text (Some status)) =>
             Return (Some (exitStatusError
               (if bool_decide (status = -1) && negb (timerStop os command)
                then CommandStoppedPreemptivelyExitCode else status)
               (ExitError text (Some status))))
         | Some e => Return (Some e)
         | None => Return None
         end
     end,
     Close out (Close err w1)).
Proof.
  intros Hparts Hfiles command. unfold updateutil.ExeCommand.
  rewrite Hparts, Hfiles. fold command.
  destruct (cmdStart os command); [done|].
  by destruct (cmdWait os command) as [[text [status|]|text]|].
Qed.

(** The text of the error names the exit code. *)
Lemma append_cancel_r (a b t : string) : a +:+ t = b +:+ t → a = b.
Proof.
  revert b. induction a as [|x a IH]; intros [|y b] Heq; simpl in Heq.
  - done.
  - apply (f_equal String.length) in Heq. simpl in Heq.
    rewrite length_append in Heq. lia.
  - apply (f_equal String.length) in Heq. simpl in Heq.
    rewrite length_append in Heq. lia.
  - injection Heq as -> Heq. f_equal. by apply IH.
Qed.

Lemma exitStatusError_inj (c c' : Z) (e : error) :
  exitStatusError c e = exitStatusError c' e → c = c'.
Proof.
  unfold exitStatusError. intros [= Heq].
  apply append_cancel_r in Heq. by apply pretty_Z_inj.
Qed.

(** C3: under supervision, when the child ends with exit status -1 and
    the timer has fired ([timer.Stop()] is false), the error of
    [ExeCommand] carries the exit code reserved for a command stopped
    preemptively; when the timer has not fired, it carries the exit
    status of the child as it is. *)
Theorem ExeCommand_stopped_preemptively (os : OS)
    (cmd workingDir updaterRoot stdOut stdErr : string) (w w1 : World)
    (name : string) (arg : list string) (out err : option File)
    (text : string) (status : Z) :
  setPlatformSpecificCommand (Fields cmd) = name :: arg →
  setExeOutErr os updaterRoot stdOut stdErr w = ((out, err, None), w1) →
  let command :=
    withOutput (withDir (execCommand name arg) workingDir) out err in
  let failure := ExitError text (Some status) in
  cmdStart os command = None →
  cmdWait os command = Some failure →
  let result :=
    (ExeCommand os cmd workingDir updaterRoot stdOut stdErr false w).1 in
  (status = -1 → timerStop os command = false →
   result = Return (Some (exitStatusError
                            CommandStoppedPreemptivelyExitCode failure)))
  ∧ (timerStop os command = true →
     result = Return (Some (exitStatusError status failure))).
Proof.
  intros Hparts Hfiles command failure Hstart Hwait result. subst result.
  rewrite (ExeCommand_supervised _ _ _ _ _ _ _ _ _ _ _ _ Hparts Hfiles).
  fold command. rewrite Hstart, Hwait. subst failure. cbn [fst]. split.
  - intros -> ->. by rewrite bool_decide_eq_true_2.
  - intros ->. by rewrite andb_false_r.
Qed.

(** C9: in detached mode a command line of white space only makes
    [ExeCommand] panic on [parts[0]]; with any other command line the
    call returns, with the error of the start if there is one. *)
Theorem ExeCommand_detached_blank (os : OS)
    (cmd workingDir updaterRoot stdOut stdErr : string) (w : World) :
  let outcome :=
    (ExeCommand os cmd workingDir updaterRoot stdOut stdErr true w).1 in
  (blank cmd → Fields cmd = [] ∧ outcome = Panic indexOutOfRange)
  ∧ (¬ blank cmd →
     ∃ name arg,
       Fields cmd = name :: arg
       ∧ outcome
         = Return (cmdStart os
                     (prepareProcess
                        (withDir (execCommand name arg) workingDir)))).
Proof.
  intros outcome. subst outcome. unfold updateutil.ExeCommand. split.
  - intros Hblank%Fields_nil. by rewrite Hblank.
  - intros Hblank. destruct (Fields cmd) as [|name arg] eqn:Hfields.
    + by apply Fields_nil in Hfields.
    + exists name, arg. split; [done|].
      by destruct (cmdStart os _).
Qed.

Lemma filter_all {A} (P : A → Prop) `{∀ x, Decision (P x)} (l : list A) :
  Forall P l → filter P l = l.
Proof.
  induction 1 as [|x l Hx _ IH]; [done|].
  by rewrite filter_cons_True, IH.
Qed.

Lemma older_files (w : World) (f : File) :
  Forall (λ g, (fd g < opened w)%nat) (open_files w) →
  (opened w ≤ fd f)%nat →
  Forall (λ g, g ≠ f) (open_files w).
Proof.
  intros Hold Hf. eapply Forall_impl; [exact Hold|].
  intros g Hg ->. simpl in Hg. lia.
Qed.

(** Closing the two files of [setExeOutErr] leaves what was open
    before. *)
Lemma Close_both (w : World) (out err : File) :
  Forall (λ f, (fd f < opened w)%nat) (open_files w) →
  fd out = opened w → fd err = S (opened w) →
  open_files
    (Close (Some out)
       (Close (Some err)
          {| opened := S (S (opened w));
             open_files := open_files w ++ [out; err] |}))
  = open_files w.
Proof.
  intros Hold Hout Herr. simpl.
  rewrite filter_app, (filter_all _ (open_files w))
    by (apply older_files; [done | lia]).
  rewrite filter_cons_True by (intros ->; lia).
  rewrite filter_cons_False by (intros Hne; by apply Hne).
  rewrite filter_nil, filter_app, (filter_all _ (open_files w))
    by (apply older_files; [done | lia]).
  rewrite filter_cons_False by (intros Hne; by apply Hne).
  by rewrite filter_nil, app_nil_r.
Qed.

(** Under supervision the files that [ExeCommand] has opened are closed
    when it returns, except on one path: when the stdout file is open and
    the stderr file cannot be opened, the call returns before the close
    of the stdout file is deferred. *)
Lemma ExeCommand_open_files (os : OS)
    (cmd workingDir updaterRoot stdOut stdErr : string) (w : World) :
  Forall (λ f, (fd f < opened w)%nat) (open_files w) →
  let w' :=
    (ExeCommand os cmd workingDir updaterRoot stdOut stdErr false w).2 in
  open_files w' = open_files w
  ∨ (mkDirAll os (UpdateOutputDirectory updaterRoot) ReadWriteExecuteAccess
     = None
     ∧ openFile os (opened w) (UpdateStandOutPath updaterRoot stdOut)
         flags ownerReadWrite = None
     ∧ openFile os (S (opened w)) (UpdateStandOutPath updaterRoot stdErr)
         flags ownerReadWrite ≠ None
     ∧ open_files w'
       = open_files w
           ++ [{| fd := opened w;
                  name := UpdateStandOutPath updaterRoot stdOut |}]).
Proof.
  intros Hold w'. subst w'.
  destruct (setPlatformSpecificCommand (Fields cmd)) as [|name arg]
    eqn:Hparts.
  { left. unfold updateutil.ExeCommand. by rewrite Hparts. }
  destruct (mkDirAll os (UpdateOutputDirectory updaterRoot)
              ReadWriteExecuteAccess) as [e|] eqn:Hdir.
  { left. unfold updateutil.ExeCommand, updateutil.setExeOutErr.
    by rewrite Hparts, Hdir. }
  destruct (openFile os (opened w) (UpdateStandOutPath updaterRoot stdOut)
              flags ownerReadWrite) as [e|] eqn:Hout.
  { left. unfold updateutil.ExeCommand, updateutil.setExeOutErr, OpenFile.
    fold flags. by rewrite Hparts, Hdir, Hout. }
  destruct (openFile os (S (opened w))
              (UpdateStandOutPath updaterRoot stdErr)
              flags ownerReadWrite) as [e|] eqn:Herr.
  - right. repeat split; try done.
    pose proof (setExeOutErr_second_fails os updaterRoot stdOut stdErr w e
                  Hdir Hout Herr) as Hfiles.
    unfold updateutil.ExeCommand. by rewrite Hparts, Hfiles.
  - left.
    pose proof (setExeOutErr_opens os updaterRoot stdOut stdErr w
                  Hdir Hout Herr) as Hfiles.
    rewrite (ExeCommand_supervised _ _ _ _ _ _ _ _ _ _ _ _ Hparts Hfiles).
    cbn [snd]. by apply Close_both.
Qed.

(** C2: without a name for the stderr file, the file [setExeOutErr] opens
    for stderr is the file [stdout] of the output directory, where
    [UpdateStandErrPath] names the file [stderr] of that directory; with
    no name for the stdout file either, both writers are on one file. *)
Theorem setExeOutErr_default_stderr (os : OS) (updaterRoot stdOut : string)
    (w w' : World) (out err : File) :
  setExeOutErr os updaterRoot stdOut "" w = ((Some out, Some err, None), w') →
  let dir := cleaned_prefix (UpdateOutputDirectory updaterRoot) in
  name err = dir +:+ "stdout"
  ∧ UpdateStandErrPath updaterRoot "" = dir +:+ "stderr"
  ∧ name err ≠ UpdateStandErrPath updaterRoot ""
  ∧ (stdOut = "" → name out = name err).
Proof.
  intros Hfiles dir.
  destruct (default_paths updaterRoot) as [Hout Herr]. fold dir in Hout, Herr.
  unfold updateutil.setExeOutErr, OpenFile in Hfiles.
  destruct (mkDirAll os _ _); [done|].
  destruct (openFile os (opened w) _ _ _); [done|].
  cbn [opened open_files] in Hfiles.
  destruct (openFile os (S (opened w)) _ _ _); [done|].
  injection Hfiles as <- <- _. cbn [name].
  split; [done|]. split; [done|]. split.
  - rewrite Hout, Herr. intros Heq%(inj (String.app dir)). discriminate.
  - by intros ->.
Qed.

(** C7: when the stdout file is open and the stderr file cannot be opened,
    [ExeCommand] returns the error of the second [os.OpenFile] and the
    stdout file stays open. *)
Theorem ExeCommand_leaves_stdout_open (os : OS)
    (cmd workingDir updaterRoot stdOut stdErr : string) (w : World)
    (e : error) :
  setPlatformSpecificCommand (Fields cmd) ≠ [] →
  mkDirAll os (UpdateOutputDirectory updaterRoot) ReadWriteExecuteAccess
  = None →
  openFile os (opened w) (UpdateStandOutPath updaterRoot stdOut)
    flags ownerReadWrite = None →
  openFile os (S (opened w)) (UpdateStandOutPath updaterRoot stdErr)
    flags ownerReadWrite = Some e →
  ExeCommand os cmd workingDir updaterRoot stdOut stdErr false w
  = (Return (Some e),
     {| opened := S (S (opened w));
        open_files :=
          open_files w
            ++ [{| fd := opened w;
                   name := UpdateStandOutPath updaterRoot stdOut |}] |}).
Proof.
  intros Hparts Hdir Hout Herr.
  pose proof (setExeOutErr_second_fails os updaterRoot stdOut stdErr w e
                Hdir Hout Herr) as Hfiles.
  unfold updateutil.ExeCommand.
  destruct (setPlatformSpecificCommand (Fields cmd)); [done|].
  by rewrite Hfiles.
Qed.

End ExecFacts.

(** ** The updater on a concrete host *)

Lemma setExeOutErr_default_stderr_witness :
  (updateutil.setExeOutErr readWriteExecuteAccess obliging updateRoot "" ""
     updateutil.fresh).1
  = (Some {| updateutil.fd := 0;
             updateutil.name := "/var/lib/amazon/ssm/update/output/stdout" |},
     Some {| updateutil.fd := 1;
             updateutil.name := "/var/lib/amazon/ssm/update/output/stdout" |},
     None)
  ∧ updateutil.UpdateStandErrPath updateRoot ""
    = "/var/lib/amazon/ssm/update/output/stderr"
  ∧ "/var/lib/amazon/ssm/update/output/stdout"
    ≠ updateutil.UpdateStandErrPath updateRoot "".
Proof.
  split; [vm_compute; reflexivity|]. split; [vm_compute; reflexivity|].
  refine (proj1 (proj2 (proj2
    (setExeOutErr_default_stderr readWriteExecuteAccess obliging updateRoot ""
       updateutil.fresh _
       {| updateutil.fd := 0;
          updateutil.name := "/var/lib/amazon/ssm/update/output/stdout" |}
       {| updateutil.fd := 1;
          updateutil.name := "/var/lib/amazon/ssm/update/output/stdout" |}
       _)))).
  vm_compute. reflexivity.
Defined.

Lemma ExeCommand_leaves_stdout_open_witness :
  updateutil.ExeCommand stoppedPreemptively readWriteExecuteAccess sameParts
    sameProcess no_logs "updater -update" "/tmp" updateRoot
    "stdout" "logs/stderr" false updateutil.fresh
  = (updateutil.Return
       (Some (errorString "open: no such file or directory")),
     {| updateutil.opened := 2;
        updateutil.open_files :=
          [{| updateutil.fd := 0;
              updateutil.name :=
                "/var/lib/amazon/ssm/update/output/stdout" |}] |}).
Proof.
  refine (ExeCommand_leaves_stdout_open stoppedPreemptively
            readWriteExecuteAccess sameParts sameProcess no_logs
            "updater -update" "/tmp" updateRoot "stdout" "logs/stderr"
            updateutil.fresh (errorString "open: no such file or directory")
            _ _ _ _).
  - vm_compute. discriminate.
  - reflexivity.
  - reflexivity.
  - reflexivity.
Defined.

Lemma ExeCommand_stopped_preemptively_witness :
  (updateutil.ExeCommand stoppedPreemptively readWriteExecuteAccess sameParts
     sameProcess overrun "sleep 60" "/tmp" updateRoot "" "" false
     updateutil.fresh).1
  = updateutil.Return
      (Some (updateutil.exitStatusError 137
               (ExitError "signal: killed" (Some (-1))))).
Proof.
  refine (proj1 (ExeCommand_stopped_preemptively stoppedPreemptively
                   readWriteExecuteAccess sameParts sameProcess overrun
                   "sleep 60" "/tmp" updateRoot "" "" updateutil.fresh
                   _ "sleep" ["60"] _ _ "signal: killed" (-1)
                   _ _ _ _) _ _);
    reflexivity.
Defined.

Lemma IsPlatformUsingSystemD_table_witness :
  (updateutil.IsPlatformUsingSystemD compareMajor ubuntu1604
     updateutil.initial).1.1 = true.
Proof.
  apply (proj2 (proj1 (IsPlatformUsingSystemD_table compareMajor ubuntu1604
                         updateutil.initial initialised_initial))).
  exists "15", 1. split; [reflexivity|]. split; [reflexivity | lia].
Defined.

Lemma ExeCommand_detached_blank_witness :
  (updateutil.ExeCommand stoppedPreemptively readWriteExecuteAccess sameParts
     sameProcess obliging "   " "/tmp" updateRoot "" "" true
     updateutil.fresh).1
  = updateutil.Panic "index out of range".
Proof.
  apply (proj1 (ExeCommand_detached_blank stoppedPreemptively
                  readWriteExecuteAccess sameParts sameProcess obliging
                  "   " "/tmp" updateRoot "" "" updateutil.fresh)).
  apply (blank_space " " "  "); [in_list|].
  apply (blank_space " " " "); [in_list|].
  apply (blank_space " " ""); [in_list|].
  constructor.
Defined.

(** * Further properties *)

(** ** Polling stops at the first outcome *)
Section PollingFacts.
Import Strings clicommand.
Variables Root Submitted Invalid : string.

Local Abbreviation check := (check Submitted Invalid).
Local Abbreviation poll := (poll Submitted Invalid).
Local Abbreviation waitForSubmitStatus :=
  (waitForSubmitStatus Root Submitted Invalid).
Local Abbreviation attempt := (attempt Submitted Invalid).

(** [k] attempts without a match, and then the rest of the loop. *)
Lemma poll_skip (fs : FileSystem) (d : string) (k n : nat) (w : World) :
  (∀ j, (j < k)%nat →
        no_match fs d (clock w + 3 * j) Submitted
        ∧ no_match fs d (clock w + 3 * j + 1) Invalid) →
  poll fs d (k + n) w
  = poll fs d n {| clock := clock w + 3 * k;
                   trace := trace w ++ concat (replicate k attempt) |}.
Proof.
  revert w. induction k as [|k IH]; intros w Hno.
  - destruct w as [c t]. cbn [Nat.add replicate concat clock trace].
    by rewrite Nat.mul_0_r, Nat.add_0_r, app_nil_r.
  - cbn [Nat.add]. rewrite (poll_unfold Submitted Invalid).
    destruct (Hno 0%nat) as [Hs Hi]; [lia|].
    rewrite Nat.mul_0_r, Nat.add_0_r in Hs, Hi. rewrite Nat.add_1_r in Hi.
    rewrite (check_none _ _ _ _ _ Hs Hi). rewrite IH.
    + unfold emit; cbn [clock trace replicate concat]. f_equal. f_equal.
      * lia.
      * by rewrite <- !app_assoc.
    + intros j Hj. unfold emit; cbn [clock].
      destruct (Hno (S j)) as [Hs' Hi']; [lia|].
      replace (S (S (S (clock w))) + 3 * j)%nat
        with (clock w + 3 * S j)%nat by lia.
      done.
Qed.

(** X1: when the attempt number [k] (of the ten) is the first to find the
    document, [waitForSubmitStatus] returns at once: a match in the
    submitted folder is a success whatever the invalid folder holds, which
    is not even listed; the pending file is not deleted and nothing is
    listed afterwards. *)
Theorem waitForSubmitStatus_first_match (fs : FileSystem) (d : string)
    (w : World) (k : nat) :
  (k < 10)%nat →
  (∀ j, (j < k)%nat →
        no_match fs d (clock w + 3 * j) Submitted
        ∧ no_match fs d (clock w + 3 * j + 1) Invalid) →
  let s := firstProcessed d (GetFileNames fs (clock w + 3 * k) Submitted).1 in
  let i :=
    firstProcessed d (GetFileNames fs (clock w + 3 * k + 1) Invalid).1 in
  (s.1 = true →
   waitForSubmitStatus fs d w
   = (submitted s.2,
      {| clock := clock w + 3 * k + 1;
         trace := trace w ++ concat (replicate k attempt)
                    ++ [EvGetFileNames Submitted] |}))
  ∧ (s.1 = false → i.1 = true →
     waitForSubmitStatus fs d w
     = (invalid,
        {| clock := clock w + 3 * k + 2;
           trace := trace w ++ concat (replicate k attempt)
                      ++ [EvGetFileNames Submitted;
                          EvGetFileNames Invalid] |})).
Proof.
  intros Hk Hno s i.
  rewrite (waitForSubmitStatus_unfold Root Submitted Invalid).
  replace 10%nat with (k + S (9 - k))%nat by lia.
  rewrite (poll_skip _ _ _ _ _ Hno), (poll_unfold Submitted Invalid).
  rewrite (check_run Submitted Invalid). cbv zeta.
  unfold emit. cbn [clock trace].
  replace (S (clock w + 3 * k)) with (clock w + 3 * k + 1)%nat by lia.
  fold s i. split.
  - intros ->. f_equal. f_equal. by rewrite <- app_assoc.
  - intros -> ->. f_equal. f_equal; [lia|]. by rewrite <- !app_assoc.
Qed.

End PollingFacts.

(** ** Inputs that pass the validation *)
Section AcceptedInput.
Import clicommand.
Variable FormatFlag : string → string.
Variables ValidJson ValidUrl : string → bool.

Local Abbreviation validateSendCommandInput :=
  (validateSendCommandInput FormatFlag ValidJson ValidUrl).

Lemma unsupported_nil (order validation : list string) :
  foldl (unsupported FormatFlag) validation order = []
  ↔ validation = [] ∧ Forall (λ key, key = sendCommandContent) order.
Proof.
  revert validation. induction order as [|key order IH]; intros validation.
  - simpl. split; [by intros -> | by intros [-> _]].
  - cbn [foldl]. rewrite IH. unfold unsupported. case_bool_decide as Hkey.
    + split.
      * intros [Hnil _]. by destruct validation.
      * intros [_ Hall]. by inversion Hall.
    + split.
      * intros [-> Hall]. split; [done|]. constructor; [|done].
        by destruct (decide (key = sendCommandContent)).
      * intros [-> Hall]. split; [done|]. by inversion Hall.
Qed.

(** Without messages, the content parameter has one value. *)
Lemma validation_nil_content (order subcommands : list string)
    (parameters : gmap string (list string)) :
  validateSendCommandInput order subcommands parameters = [] →
  subcommands = []
  ∧ Forall (λ key, key = sendCommandContent) order
  ∧ ∃ val, parameters !! sendCommandContent = Some [val]
           ∧ (ValidJson val = true ∨ ValidUrl val = true).
Proof.
  destruct subcommands as [|sub subs].
  - rewrite validateSendCommandInput_nil. intros [Hnil Hall]%unsupported_nil.
    split; [done|]. split; [done|].
    destruct (parameters !! sendCommandContent) as [[|val [|val' vals]]|];
      try done.
    exists val. split; [done|].
    destruct (ValidJson val); [by left|]. destruct (ValidUrl val); [by right|].
    done.
  - unfold clicommand.validateSendCommandInput.
    by rewrite bool_decide_eq_true_2 by (simpl; lia).
Qed.

(** X2: [validateSendCommandInput] has no message exactly for the inputs
    without subcommands whose only parameter is the content, with one
    value that is valid JSON or a URL. *)
Theorem validateSendCommandInput_accepts (order subcommands : list string)
    (parameters : gmap string (list string)) :
  range_order parameters order →
  validateSendCommandInput order subcommands parameters = []
  ↔ subcommands = []
    ∧ ∃ val, parameters = {[sendCommandContent := [val]]}
             ∧ (ValidJson val = true ∨ ValidUrl val = true).
Proof.
  intros Horder. split.
  - intros (-> & Hall & val & Hval & Hvalid)%validation_nil_content.
    split; [done|]. exists val. split; [|done].
    apply map_eq. intros key.
    destruct (decide (key = sendCommandContent)) as [->|Hne].
    + by rewrite lookup_singleton_eq.
    + rewrite lookup_singleton_ne by done.
      destruct (parameters !! key) as [values|] eqn:Hkey; [|done].
      assert (key ∈ order) as Hin
        by (rewrite (elem_of_range_order _ _ _ Horder); by eexists).
      rewrite Forall_forall in Hall. by apply Hall in Hin.
  - intros (-> & val & -> & Hvalid).
    rewrite validateSendCommandInput_nil, lookup_singleton_eq.
    apply unsupported_nil. split.
    + by destruct Hvalid as [-> | ->]; [|rewrite andb_false_r].
    + apply Forall_forall. intros key Hin.
      rewrite (elem_of_range_order _ _ _ Horder) in Hin.
      destruct (decide (key = sendCommandContent)) as [|Hne]; [done|].
      rewrite lookup_singleton_ne in Hin by done. by destruct Hin.
Qed.

End AcceptedInput.

(** ** The command as a whole *)
Section ExecuteFacts.
Import clicommand SendOfflineCommand.
Context {PluginConfig InstancePluginConfig : Type}.
Variable FormatFlag : string → string.
Variables ValidJson ValidUrl : string → bool.
Variable ToLower : string → string.
Variables Root Submitted Invalid : string.

Local Abbreviation Host := (@Host PluginConfig InstancePluginConfig).
Local Abbreviation validateSendCommandInput :=
  (validateSendCommandInput FormatFlag ValidJson ValidUrl).
Local Abbreviation loadContent := (loadContent ValidJson ToLower).
Local Abbreviation submitCommandDocument := (submitCommandDocument Root).
Local Abbreviation Execute :=
  (Execute FormatFlag ValidJson ValidUrl ToLower Root Submitted Invalid).
Local Abbreviation present := (present ValidJson ValidUrl).

Lemma length_zero (validation : list string) :
  bool_decide (0 < length validation)%nat = false ↔ validation = [].
Proof.
  rewrite bool_decide_eq_false. destruct validation; simpl; split;
    first [done | lia | intros; lia].
Qed.

(** X3: [Execute] never panics on [parameters[sendCommandContent][0]]:
    whatever the input, it returns. *)
Theorem Execute_returns (h : Host) (order subcommands : list string)
    (parameters : gmap string (list string)) :
  ∃ err out, (Execute h order subcommands parameters).1 = Returned err out.
Proof.
  unfold SendOfflineCommand.Execute.
  destruct (bool_decide (0 < length _)%nat) eqn:Hlen; [by eexists _, _|].
  apply length_zero, validation_nil_content in Hlen
    as (_ & _ & val & -> & _).
  cbn [from_option id].
  destruct (loadContent h val)
    as [[[e|] content] loaded]; [by eexists _, _|].
  destruct (validateContent content); [by eexists _, _|].
  destruct (Marshal h content) as [contentString [e|]]; [by eexists _, _|].
  destruct (submitCommandDocument h contentString)
    as [[[e|] documentName] written]; [by eexists _, _|].
  destruct (waitForSubmitStatus Root Submitted Invalid _ _ _).
  by eexists _, _.
Qed.

(** An input with a violation has a message. *)
Lemma present_message (order subcommands : list string)
    (parameters : gmap string (list string)) (v : Violation) :
  range_order parameters order →
  present subcommands parameters v →
  validateSendCommandInput order subcommands parameters ≠ [].
Proof.
  intros Horder Hv (-> & Hall & val & Hval & Hvalid)%validation_nil_content.
  destruct v as [| | | |key]; simpl in Hv.
  - done.
  - congruence.
  - destruct Hv as (values & Hvalues & Hlen).
    rewrite Hval in Hvalues. injection Hvalues as <-. by apply Hlen.
  - destruct Hv as (val' & Hval' & Hjson & Hurl).
    rewrite Hval in Hval'. injection Hval' as <-.
    destruct Hvalid; congruence.
  - destruct Hv as [Hsome Hne]. apply Hne.
    apply (elem_of_range_order _ _ _ Horder) in Hsome.
    rewrite Forall_forall in Hall. by apply Hall.
Qed.

(** X4: an input with a violation makes [Execute] return an error, the
    messages of the validation joined by new lines, and an empty string;
    nothing is downloaded or written and the folders are not polled. *)
Theorem Execute_rejects (h : Host) (order subcommands : list string)
    (parameters : gmap string (list string)) (v : Violation) :
  range_order parameters order →
  present subcommands parameters v →
  Execute h order subcommands parameters
  = (Returned
       (Some (errorString
                (Strings.Join
                   (validateSendCommandInput order subcommands parameters)
                   newline))) "",
     []).
Proof.
  intros Horder Hv. unfold SendOfflineCommand.Execute.
  rewrite bool_decide_eq_true_2; [done|].
  pose proof (present_message _ _ _ _ Horder Hv) as Hne.
  destruct (clicommand.validateSendCommandInput _ _ _ _ _ _);
    [done | simpl; lia].
Qed.

(** What [waitForSubmitStatus] can return. *)
Lemma waitForSubmitStatus_results (fs : FileSystem) (d : string) (w : World) :
  let status := (waitForSubmitStatus Root Submitted Invalid fs d w).1 in
  status = timedOut ∨ status = invalid ∨ ∃ id, status = submitted id.
Proof.
  cbv zeta. rewrite (waitForSubmitStatus_unfold Root Submitted Invalid).
  destruct (poll Submitted Invalid fs d 10 w) as [[result|] w'] eqn:Hpoll; cbn [fst].
  - apply poll_some in Hpoll as [-> | (_ & id & _ & ->)]; eauto.
  - cbv zeta. destruct (check Submitted Invalid fs d _) as [[result|] w3] eqn:Hcheck;
      cbn [fst]; [|by left].
    apply check_some in Hcheck as [-> | (_ & id & _ & ->)]; eauto.
Qed.

(** X5: [Execute] returns an error only from the stages before the
    polling, and then with an empty string; once the document is written
    the error is [nil] and the string is one of the three outcomes of the
    polling, the time-out and the rejection among them.  The polling
    follows the creation of the folder and the writing of the document
    under its fresh name. *)
Theorem Execute_outcomes (h : Host) (order subcommands : list string)
    (parameters : gmap string (list string)) (err : option error)
    (out : string) (ops : list Op) :
  Execute h order subcommands parameters = (Returned err out, ops) →
  (err ≠ None → out = "" ∧ ∀ events, OpWait events ∉ ops)
  ∧ (err = None →
     (out = timedOut ∨ out = invalid ∨ ∃ id, out = submitted id)
     ∧ ∃ loaded content events,
         ops = loaded
                 ++ [OpMakeDirs Root;
                     OpWriteAllText (Filepath.Join [Root; NewV4 h]) content;
                     OpWait events]
         ∧ ∀ events', OpWait events' ∉ loaded).
Proof.
  unfold SendOfflineCommand.Execute.
  destruct (bool_decide (0 < length _)%nat).
  { intros [= <- <- <-]. split; [|done]. intros _. split; [done|].
    intros events Hin. by apply not_elem_of_nil in Hin. }
  destruct (default [] _) as [|rawContent rest]; [done|].
  assert (∀ events, OpWait events ∉ (loadContent h rawContent).2) as Hloaded.
  { intros events. unfold SendOfflineCommand.loadContent.
    destruct (ValidJson rawContent).
    - destruct (Unmarshal h rawContent). apply not_elem_of_nil.
    - destruct (Download h _) as [path [e|]].
      + by intros [=]%list_elem_of_singleton.
      + destruct (UnmarshalFile h path).
        by intros [=]%list_elem_of_singleton. }
  destruct (loadContent h rawContent)
    as [[[e|] content] loaded]; cbn [snd] in Hloaded.
  { intros [= <- <- <-]. split; [by split | done]. }
  destruct (validateContent content).
  { intros [= <- <- <-]. split; [by split | done]. }
  destruct (Marshal h content) as [contentString [e|]].
  { intros [= <- <- <-]. split; [by split | done]. }
  unfold SendOfflineCommand.submitCommandDocument.
  destruct (MakeDirs h Root).
  { intros [= <- <- <-]. split; [|done]. intros _. split; [done|].
    intros events [Hin | [=]%list_elem_of_singleton]%elem_of_app.
    by apply Hloaded in Hin. }
  destruct (WriteAllText h _ contentString).
  { intros [= <- <- <-]. split; [|done]. intros _. split; [done|].
    intros events [Hin | Hin]%elem_of_app; [by apply Hloaded in Hin|].
    apply elem_of_cons in Hin as [[=] | [=]%list_elem_of_singleton]. }
  pose proof (waitForSubmitStatus_results (files h) (NewV4 h) start)
    as Hstatus.
  destruct (waitForSubmitStatus Root Submitted Invalid _ _ _) as [status w].
  intros [= <- <- <-]. split; [done|]. intros _. split; [done|].
  by exists loaded, contentString, (trace w).
Qed.

End ExecuteFacts.

(** ** Loading a document from a file URL *)
Section LoadFacts.
Import Strings clicommand SendOfflineCommand.
Context {PluginConfig InstancePluginConfig : Type}.
Variables ValidJson : string → bool.
Variable ToLower : string → string.

Local Abbreviation Host := (@Host PluginConfig InstancePluginConfig).
Local Abbreviation loadContent := (loadContent ValidJson ToLower).

Lemma lowerASCII_length (s : string) :
  String.length (lowerASCII s) = String.length s.
Proof. induction s as [|c s IH]; simpl; [done | by rewrite IH]. Qed.

Lemma lowerASCII_app (a b : string) :
  lowerASCII (a +:+ b) = lowerASCII a +:+ lowerASCII b.
Proof. induction a as [|c a IH]; simpl; [done | by rewrite IH]. Qed.

Lemma lowerASCII_split (s a b : string) :
  lowerASCII s = a +:+ b →
  ∃ s1 s2, s = s1 +:+ s2 ∧ lowerASCII s1 = a ∧ lowerASCII s2 = b.
Proof.
  revert s. induction a as [|x a IH]; intros s Hs.
  - by exists "", s.
  - destruct s as [|c s]; [done|]. simpl in Hs. injection Hs as Hc Hs.
    destruct (IH _ Hs) as (s1 & s2 & -> & <- & <-).
    exists (String c s1), s2. simpl. by rewrite Hc.
Qed.

(** X6: for an ASCII argument that is not JSON, [loadContent] downloads
    from what follows the scheme [file://], in whatever case the scheme is
    written, and from the argument itself when it has no such scheme; an
    argument that is JSON is not downloaded at all. *)
Theorem loadContent_file_scheme (h : Host) (rawContent : string) :
  lowers_ascii ToLower →
  isASCII rawContent = true →
  (ValidJson rawContent = true → (loadContent h rawContent).2 = [])
  ∧ (ValidJson rawContent = false →
     (∀ scheme rest,
        rawContent = scheme +:+ rest → lowerASCII scheme = "file://" →
        (loadContent h rawContent).2 = [OpDownload rest])
     ∧ ((∀ scheme rest,
           rawContent = scheme +:+ rest → lowerASCII scheme ≠ "file://") →
        (loadContent h rawContent).2 = [OpDownload rawContent])).
Proof.
  intros Hlower Hascii. unfold SendOfflineCommand.loadContent.
  rewrite (Hlower _ Hascii). split.
  - intros ->. by destruct (Unmarshal h rawContent).
  - intros ->. split.
    + intros scheme rest -> Hscheme.
      rewrite lowerASCII_app, Hscheme.
      rewrite (proj2 (HasPrefix_spec _ _)) by by eexists.
      assert (SliceFrom (scheme +:+ rest) 7 = rest) as ->.
      { unfold SliceFrom.
        replace (Z.to_nat 7) with (String.length scheme);
          [apply drop_bytes_app|].
        by rewrite <- lowerASCII_length, Hscheme. }
      destruct (Download h rest) as [path [e|]]; [done|].
      by destruct (UnmarshalFile h path).
    + intros Hnone.
      destruct (HasPrefix (lowerASCII rawContent) "file://") eqn:Hprefix.
      * apply HasPrefix_spec in Hprefix as [rest Hrest].
        apply lowerASCII_split in Hrest as (s1 & s2 & -> & Hs1 & _).
        by destruct (Hnone s1 s2).
      * destruct (Download h rawContent) as [path [e|]]; [done|].
        by destruct (UnmarshalFile h path).
Qed.

End LoadFacts.

(** ** The instance context *)
Section InstanceFacts.
Import Strings updateutil Utility.
Variable ToLower : string → string.
Variables GOARCH CompressFormat : string.

Local Abbreviation CreateInstanceContext :=
  (CreateInstanceContext ToLower GOARCH CompressFormat).

(** What a call that succeeds has read. *)
Lemma CreateInstanceContext_success (p : Probe) (i : InstanceContext) :
  CreateInstanceContext p = (Some i, None) →
  Region i = (getRegion p).1 ∧ Region i ≠ ""
  ∧ (Platform i, InstallerName i)
    = classify (ToLower (getPlatformName p).1)
  ∧ PlatformVersion i = (getPlatformVersion p).1
  ∧ Arch i = GOARCH ∧ updateutil.CompressFormat i = CompressFormat.
Proof.
  unfold Utility.CreateInstanceContext.
  destruct (getRegion p) as [region e]. case_bool_decide; [done|].
  destruct (getPlatformName p) as [name [e'|]]; [done|].
  destruct (getPlatformVersion p) as [version [e''|]];
    [by destruct (classify _)|].
  cbn [fst].
  destruct (classify (ToLower name)) as [platformName installerName].
  by intros [= <-].
Qed.

(** X7: the context of [CreateInstanceContext] has one of five pairs of
    platform and installer; a platform name with [amazon] in it is Linux
    whatever else it names, and a platform name with none of the four
    known marks, be it of another Linux, is Windows. *)
Theorem CreateInstanceContext_platform (p : Probe) (i : InstanceContext) :
  CreateInstanceContext p = (Some i, None) →
  let name := ToLower (getPlatformName p).1 in
  (Platform i, InstallerName i)
  ∈ [("linux", "linux"); ("red hat", "linux"); ("ubuntu", "ubuntu");
     ("centos", "linux"); ("windows", "windows")]
  ∧ (Contains name "amazon" = true → Platform i = "linux")
  ∧ (Platform i = "windows" ↔
       Contains name "amazon" = false ∧ Contains name "red hat" = false
       ∧ Contains name "ubuntu" = false ∧ Contains name "centos" = false).
Proof.
  intros (_ & _ & Hclass & _)%CreateInstanceContext_success name.
  fold name in Hclass. unfold classify in Hclass.
  unfold PlatformAmazonLinux, PlatformRedHat, PlatformUbuntu, PlatformCentOS,
    PlatformWindows, PlatformLinux in Hclass.
  destruct (Contains name "amazon"), (Contains name "red hat"),
    (Contains name "ubuntu"), (Contains name "centos");
    injection Hclass as -> ->;
    (split; [in_list | split; [done | split; [done | intuition congruence]]]).
Qed.

(** X8: [CreateInstanceContext] fails on an empty region also when the
    probe of the region reports no error, and with a region it does not
    look at the error of that probe. *)
Theorem CreateInstanceContext_region (p : Probe) (region : string)
    (err err' : option error) :
  getRegion p = (region, err) →
  (region = "" →
   CreateInstanceContext p
   = (None,
      Some (errorString ("Failed to get region, " +:+ formatError err))))
  ∧ (region ≠ "" →
     CreateInstanceContext p
     = CreateInstanceContext
         {| getRegion := (region, err');
            getPlatformName := getPlatformName p;
            getPlatformVersion := getPlatformVersion p |}).
Proof.
  intros Hregion. unfold Utility.CreateInstanceContext.
  rewrite Hregion. cbn [getRegion getPlatformName getPlatformVersion]. split.
  - intros ->. by rewrite bool_decide_eq_true_2.
  - intros Hne. by rewrite bool_decide_eq_false_2.
Qed.

Variable VersionCompare : string → string → Z + error.

(** X9: on a context of [CreateInstanceContext], [IsPlatformUsingSystemD]
    can only be true for a platform name with [red hat], [ubuntu] or
    [centos] and without [amazon] in it: never on Amazon Linux and never on
    what counts as Windows. *)
Theorem CreateInstanceContext_systemd (p : Probe) (i : InstanceContext)
    (g : Globals) :
  CreateInstanceContext p = (Some i, None) →
  initialised g →
  (IsPlatformUsingSystemD VersionCompare i g).1.1 = true →
  let name := ToLower (getPlatformName p).1 in
  Contains name "amazon" = false
  ∧ (Contains name "red hat" = true ∨ Contains name "ubuntu" = true
     ∨ Contains name "centos" = true)
  ∧ InstallerName i ≠ "windows".
Proof.
  intros (_ & _ & Hclass & _)%CreateInstanceContext_success Hg Htrue name.
  fold name in Hclass.
  assert (is_Some (SystemDVersionTable !! Platform i)) as [threshold Hkey].
  { unfold IsPlatformUsingSystemD in Htrue.
    destruct (getMinimumVersionForSystemD_table g Hg) as (Htable & _).
    destruct (getMinimumVersionForSystemD g) as [table g']. simpl in Htable.
    subst table. by destruct (SystemDVersionTable !! Platform i). }
  apply (SystemDVersionTable_lookup VersionCompare) in Hkey.
  unfold classify in Hclass.
  unfold PlatformAmazonLinux, PlatformRedHat, PlatformUbuntu, PlatformCentOS,
    PlatformWindows, PlatformLinux in Hclass.
  destruct (Contains name "amazon"), (Contains name "red hat"),
    (Contains name "ubuntu"), (Contains name "centos");
    injection Hclass as Hp Hi; rewrite Hp in Hkey; rewrite Hi;
    (split; [|split]); try done; try (by auto);
    destruct Hkey as [[? _] | [[? _] | [? _]]]; done.
Qed.

End InstanceFacts.

(** ** File names of packages *)
Section FileNameFacts.
Import Strings updateutil Utility.

Lemma Replace_go_free (o : ascii) (old' new a b : string) :
  has_no o a →
  Replace_go (String o old') new 0 (a +:+ b)
  = a +:+ Replace_go (String o old') new 0 b.
Proof.
  induction a as [|c a IH]; [done|]. intros [Hc Ha]. simpl.
  destruct (Ascii.eqb_spec c o) as [->|_]; [done|]. by rewrite IH.
Qed.

Lemma Replace_go_skip (old new x b : string) :
  Replace_go old new (String.length x) (x +:+ b) = Replace_go old new 0 b.
Proof. induction x as [|c x IH]; [done|]. simpl. apply IH. Qed.

Lemma Replace_go_match (o : ascii) (old' new b : string) :
  Replace_go (String o old') new 0 (String o old' +:+ b)
  = new +:+ Replace_go (String o old') new 0 b.
Proof.
  cbn [String.app Replace_go].
  change (String o (old' +:+ b)) with (String o old' +:+ b).
  rewrite (proj2 (HasPrefix_spec _ _)) by by eexists.
  replace (String.length (String o old') - 1)%nat with (String.length old')
    by (simpl; lia).
  by rewrite Replace_go_skip.
Qed.

Lemma Replace_go_nil (old new : string) : Replace_go old new 0 "" = "".
Proof. done. Qed.

Lemma Replace_go_other (c o : ascii) (old' new s : string) :
  c ≠ o →
  Replace_go (String o old') new 0 (String c s)
  = String c (Replace_go (String o old') new 0 s).
Proof.
  intros Hc. simpl. by destruct (Ascii.eqb_spec c o).
Qed.

Lemma append_cons (c : ascii) (a b : string) :
  String c a +:+ b = String c (a +:+ b).
Proof. done. Qed.

(** X10: with no brace in the package name, the installer and the
    architecture, [FileName] is the four values joined as
    [name-installer-arch.format]. *)
Theorem FileName_plain (i : InstanceContext) (packageName : string) :
  has_no "{" packageName →
  has_no "{" (InstallerName i) →
  has_no "{" (Arch i) →
  FileName i packageName
  = packageName +:+ "-" +:+ InstallerName i +:+ "-" +:+ Arch i +:+ "."
      +:+ CompressFormat i.
Proof.
  intros Hname Hinstaller Harch. unfold FileName.
  assert (Replace "{PackageName}-{Platform}-{Arch}.{Compressed}"
            "{PackageName}" packageName
          = packageName +:+ "-{Platform}-{Arch}.{Compressed}") as ->.
  { change "{PackageName}-{Platform}-{Arch}.{Compressed}"
      with ("{PackageName}" +:+ "-{Platform}-{Arch}.{Compressed}").
    unfold Replace. rewrite Replace_go_match. done. }
  assert (Replace (packageName +:+ "-{Platform}-{Arch}.{Compressed}")
            "{Platform}" (InstallerName i)
          = packageName +:+ "-" +:+ InstallerName i
              +:+ "-{Arch}.{Compressed}") as ->.
  { unfold Replace. rewrite Replace_go_free by done.
    change "-{Platform}-{Arch}.{Compressed}"
      with (String "-" ("{Platform}" +:+ "-{Arch}.{Compressed}")).
    rewrite Replace_go_other by done. by rewrite Replace_go_match. }
  assert (Replace (packageName +:+ "-" +:+ InstallerName i
                     +:+ "-{Arch}.{Compressed}") "{Arch}" (Arch i)
          = packageName +:+ "-" +:+ InstallerName i +:+ "-" +:+ Arch i
              +:+ ".{Compressed}") as ->.
  { unfold Replace. rewrite Replace_go_free by done.
    change ("-" +:+ InstallerName i +:+ "-{Arch}.{Compressed}")
      with (String "-" (InstallerName i +:+ "-{Arch}.{Compressed}")).
    rewrite Replace_go_other by done. rewrite Replace_go_free by done.
    change "-{Arch}.{Compressed}"
      with (String "-" ("{Arch}" +:+ ".{Compressed}")).
    rewrite Replace_go_other by done. by rewrite Replace_go_match. }
  unfold Replace. rewrite Replace_go_free by done.
  change ("-" +:+ InstallerName i +:+ "-" +:+ Arch i +:+ ".{Compressed}")
    with (String "-" (InstallerName i +:+ "-" +:+ Arch i +:+ ".{Compressed}")).
  rewrite Replace_go_other by done. rewrite Replace_go_free by done.
  change ("-" +:+ Arch i +:+ ".{Compressed}")
    with (String "-" (Arch i +:+ ".{Compressed}")).
  rewrite Replace_go_other by done. rewrite Replace_go_free by done.
  change ".{Compressed}" with (String "." ("{Compressed}" +:+ "")).
  rewrite Replace_go_other by done. rewrite Replace_go_match.
  by rewrite append_nil_r.
Qed.

Lemma Replace_go_mismatch (old new : string) (c : ascii) (s : string) :
  HasPrefix (String c s) old = false →
  Replace_go old new 0 (String c s) = String c (Replace_go old new 0 s).
Proof. intros Hprefix. cbn [Replace_go]. by rewrite Hprefix. Qed.

(** X11: [FileName] replaces the place holders one after the other in the
    text that the earlier replacements have made: a place holder of the
    architecture inside the package name is filled in as well. *)
Theorem FileName_place_holder (i : InstanceContext) (before after : string) :
  has_no "{" before → has_no "{" after →
  has_no "{" (InstallerName i) →
  has_no "{" (Arch i) →
  FileName i (before +:+ "{Arch}" +:+ after)
  = before +:+ Arch i +:+ after +:+ "-" +:+ InstallerName i +:+ "-"
      +:+ Arch i +:+ "." +:+ CompressFormat i.
Proof.
  intros Hbefore Hafter Hinstaller Harch. unfold FileName.
  assert (Replace "{PackageName}-{Platform}-{Arch}.{Compressed}"
            "{PackageName}" (before +:+ "{Arch}" +:+ after)
          = before +:+ "{Arch}" +:+ after
              +:+ "-{Platform}-{Arch}.{Compressed}") as ->.
  { change "{PackageName}-{Platform}-{Arch}.{Compressed}"
      with ("{PackageName}" +:+ "-{Platform}-{Arch}.{Compressed}").
    unfold Replace. rewrite Replace_go_match. by rewrite !append_assoc. }
  assert (Replace (before +:+ "{Arch}" +:+ after
                     +:+ "-{Platform}-{Arch}.{Compressed}")
            "{Platform}" (InstallerName i)
          = before +:+ "{Arch}" +:+ after +:+ "-" +:+ InstallerName i
              +:+ "-{Arch}.{Compressed}") as ->.
  { unfold Replace. rewrite Replace_go_free by done.
    change ("{Arch}" +:+ after +:+ "-{Platform}-{Arch}.{Compressed}")
      with (String "{" ("Arch}" +:+ after
                          +:+ "-{Platform}-{Arch}.{Compressed}")).
    rewrite Replace_go_mismatch by done.
    rewrite (Replace_go_free _ _ _ "Arch}") by (by repeat split).
    rewrite Replace_go_free by done.
    change "-{Platform}-{Arch}.{Compressed}"
      with (String "-" ("{Platform}" +:+ "-{Arch}.{Compressed}")).
    rewrite Replace_go_other by done. by rewrite Replace_go_match. }
  assert (Replace (before +:+ "{Arch}" +:+ after +:+ "-" +:+ InstallerName i
                     +:+ "-{Arch}.{Compressed}") "{Arch}" (Arch i)
          = before +:+ Arch i +:+ after +:+ "-" +:+ InstallerName i +:+ "-"
              +:+ Arch i +:+ ".{Compressed}") as ->.
  { unfold Replace. rewrite Replace_go_free by done.
    rewrite Replace_go_match. rewrite Replace_go_free by done.
    change ("-" +:+ InstallerName i +:+ "-{Arch}.{Compressed}")
      with (String "-" (InstallerName i +:+ "-{Arch}.{Compressed}")).
    rewrite Replace_go_other by done. rewrite Replace_go_free by done.
    change "-{Arch}.{Compressed}"
      with (String "-" ("{Arch}" +:+ ".{Compressed}")).
    rewrite Replace_go_other by done. by rewrite Replace_go_match. }
  unfold Replace. rewrite Replace_go_free by done.
  rewrite Replace_go_free by done. rewrite Replace_go_free by done.
  change ("-" +:+ InstallerName i +:+ "-" +:+ Arch i +:+ ".{Compressed}")
    with (String "-" (InstallerName i +:+ "-" +:+ Arch i +:+ ".{Compressed}")).
  rewrite Replace_go_other by done. rewrite Replace_go_free by done.
  change ("-" +:+ Arch i +:+ ".{Compressed}")
    with (String "-" (Arch i +:+ ".{Compressed}")).
  rewrite Replace_go_other by done. rewrite Replace_go_free by done.
  change ".{Compressed}" with (String "." ("{Compressed}" +:+ "")).
  rewrite Replace_go_other by done. rewrite Replace_go_match.
  by rewrite append_nil_r.
Qed.

End FileNameFacts.

(** ** Messages *)
Section MessageFacts.
Import Utility.
Context {Param : Type}.
Variable Sprintf : string → list Param → string.

Local Abbreviation BuildMessage := (BuildMessage Sprintf).
Local Abbreviation BuildMessages := (BuildMessages Sprintf).

(** Once the text of the errors is not empty, the loop joins. *)
Lemma addError_join (errMessage : string) (errs : list error) :
  errMessage ≠ "" →
  foldl addError errMessage errs
  = Strings.Join (errMessage :: (Error <$> errs)) ", ".
Proof.
  revert errMessage. induction errs as [|err errs IH]; intros errMessage Hne.
  - done.
  - cbn [foldl]. unfold addError at 2.
    rewrite bool_decide_eq_false_2 by done.
    rewrite IH by (by destruct errMessage).
    cbn [fmap list_fmap Strings.Join]. destruct errs as [|err' errs].
    + done.
    + cbn [fmap list_fmap]. by rewrite !append_assoc.
Qed.

(** X12: [BuildMessages] on no error and on one error is [BuildMessage];
    when the text of the first error is not empty, the texts are joined by
    a comma and a space; an error with an empty text in front of others
    leaves no trace. *)
Theorem BuildMessages_join (err : error) (errs : list error)
    (format : string) (params : list Param) :
  BuildMessages [] format params = BuildMessage None format params
  ∧ BuildMessages [err] format params
    = BuildMessage (Some err) format params
  ∧ (Error err ≠ "" →
     BuildMessages (err :: errs) format params
     = Sprintf format params +:+ ", ErrorMessage="
         +:+ Strings.Join (Error <$> err :: errs) ", ")
  ∧ (Error err = "" → errs ≠ [] →
     BuildMessages (err :: errs) format params
     = BuildMessages errs format params).
Proof.
  split; [done|]. split; [done|]. split.
  - intros Hne. unfold Utility.BuildMessages.
    rewrite bool_decide_eq_true_2 by (simpl; lia).
    cbn [foldl]. unfold addError at 2. rewrite bool_decide_eq_true_2 by done.
    by rewrite addError_join.
  - intros Hempty Hne. unfold Utility.BuildMessages.
    rewrite !bool_decide_eq_true_2 by (destruct errs; simpl; [done | lia]).
    cbn [foldl]. unfold addError at 2. rewrite bool_decide_eq_true_2 by done.
    by rewrite Hempty.
Qed.

End MessageFacts.

(** ** The table of systemd is built once *)
Section OnceFacts.
Import updateutil.
Variable VersionCompare : string → string → Z + error.

Local Abbreviation IsPlatformUsingSystemD :=
  (IsPlatformUsingSystemD VersionCompare).

Lemma IsPlatformUsingSystemD_globals (i : InstanceContext) (g : Globals) :
  (IsPlatformUsingSystemD i g).2 = (getMinimumVersionForSystemD g).2.
Proof.
  unfold updateutil.IsPlatformUsingSystemD.
  destruct (getMinimumVersionForSystemD g) as [table g'].
  destruct (table !! Platform i); [|done].
  destruct (VersionCompare _ _) as [c|e]; [|done]. by destruct (0 <=? c).
Qed.

Lemma IsPlatformUsingSystemD_answer (i : InstanceContext) (g : Globals) :
  initialised g →
  (IsPlatformUsingSystemD i g).1
  = match SystemDVersionTable !! Platform i with
    | Some val =>
        match VersionCompare (PlatformVersion i) val with
        | inl compareResult => (bool_decide (0 ≤ compareResult), None)
        | inr err => (false, Some err)
        end
    | None => (false, None)
    end.
Proof.
  intros Hg. unfold updateutil.IsPlatformUsingSystemD.
  destruct (getMinimumVersionForSystemD_table g Hg) as (Htable & _).
  destruct (getMinimumVersionForSystemD g) as [table g'].
  cbn [fst] in Htable. subst table.
  destruct (SystemDVersionTable !! Platform i); [|done].
  destruct (VersionCompare _ _) as [c|e]; [|done].
  destruct (Z.leb_spec 0 c); cbn [fst].
  - by rewrite bool_decide_eq_true_2.
  - by rewrite bool_decide_eq_false_2 by lia.
Qed.

Lemma getMinimumVersionForSystemD_again (g : Globals) :
  initialised g →
  (getMinimumVersionForSystemD (getMinimumVersionForSystemD g).2).2
  = (getMinimumVersionForSystemD g).2.
Proof.
  intros Hg.
  destruct (getMinimumVersionForSystemD_table g Hg) as (_ & _ & Honce).
  unfold getMinimumVersionForSystemD at 1. by rewrite Honce.
Qed.

(** X13: however often and in whatever state of the package variables
    [IsPlatformUsingSystemD] is called, it answers as on the first call;
    the first call builds the table and later calls leave the package
    variables as they are. *)
Theorem IsPlatformUsingSystemD_once (i j : InstanceContext) (g : Globals) :
  initialised g →
  let first := IsPlatformUsingSystemD i g in
  first.1 = (IsPlatformUsingSystemD i initial).1
  ∧ once first.2 = true
  ∧ isUsingSystemD first.2 = SystemDVersionTable
  ∧ (IsPlatformUsingSystemD j first.2).2 = first.2.
Proof.
  intros Hg first. subst first.
  destruct (getMinimumVersionForSystemD_table g Hg) as (_ & Hg' & Honce).
  rewrite !IsPlatformUsingSystemD_globals.
  rewrite (IsPlatformUsingSystemD_answer i g Hg).
  rewrite (IsPlatformUsingSystemD_answer i initial initialised_initial).
  split; [done|]. split; [done|]. split; [by apply Hg'|].
  by apply getMinimumVersionForSystemD_again.
Qed.

End OnceFacts.

(** ** Trimming white space *)
Section TrimFacts.
Import Strings.

Lemma onlySpace_Fields (skip : nat) (s : string) :
  onlySpace skip s = true ↔ Fields_go skip None s = [].
Proof.
  revert skip. induction s as [|c s IH]; intros skip; [done|].
  cbn [onlySpace Fields_go]. destruct skip as [|k]; [|apply IH].
  destruct (space_width (String c s)) as [|w].
  - split; [done|]. intros Hnil. by apply Fields_go_some in Hnil.
  - apply IH.
Qed.

Lemma onlySpace_blank (s : string) : onlySpace 0 s = true ↔ blank s.
Proof. rewrite onlySpace_Fields. apply Fields_nil. Qed.

Lemma trimLeft_space (sp s : string) :
  sp ∈ white_space → trimLeft 0 (sp +:+ s) = trimLeft 0 s.
Proof.
  intros Hsp. unfold white_space in Hsp.
  repeat (apply elem_of_cons in Hsp as [-> | Hsp]; [reflexivity|]).
  by apply not_elem_of_nil in Hsp.
Qed.

(** What [trimLeft] drops is white space. *)
Lemma trimLeft_split (s : string) :
  ∃ l, blank l ∧ s = l +:+ trimLeft 0 s.
Proof.
  remember (String.length s) as n eqn:Hn. revert s Hn.
  induction (lt_wf n) as [n _ IH]. intros s Hn.
  destruct s as [|c s']; [exists ""; split; [constructor | done]|].
  destruct (space_width (String c s')) as [|w] eqn:Hw.
  - exists "". split; [constructor|]. cbn [trimLeft]. by rewrite Hw.
  - destruct (space_width_head _ _ Hw) as (sp & rest & Hs & Hsp).
    rewrite Hs, trimLeft_space by done.
    pose proof (white_space_length _ Hsp).
    destruct (IH (String.length rest)) with (s := rest) as (l & Hl & Hrest);
      [rewrite Hn, Hs, length_append; lia | done |].
    exists (sp +:+ l). split; [by constructor|].
    by rewrite append_assoc, <- Hrest.
Qed.

(** What [trimRight] drops is white space. *)
Lemma trimRight_split (s : string) :
  ∃ r, blank r ∧ s = trimRight s +:+ r.
Proof.
  induction s as [|c s IH]; [exists ""; split; [constructor | done]|].
  cbn [trimRight]. destruct (onlySpace 0 (String c s)) eqn:Hspace.
  - exists (String c s). split; [by apply onlySpace_blank | done].
  - destruct IH as (r & Hr & Hs). exists r. split; [done|].
    simpl. by rewrite <- Hs.
Qed.

Lemma all_bytes_app (P : ascii → bool) (a b : string) :
  all_bytes P (a +:+ b) = all_bytes P a && all_bytes P b.
Proof.
  induction a as [|c a IH]; [done|]. simpl. by rewrite IH, andb_assoc.
Qed.

Lemma white_space_bytes (sp : string) :
  sp ∈ white_space → all_bytes space_byte sp = true.
Proof.
  intros Hsp. unfold white_space in Hsp.
  repeat (apply elem_of_cons in Hsp as [-> | Hsp]; [by vm_compute|]).
  by apply not_elem_of_nil in Hsp.
Qed.

Lemma blank_bytes (s : string) : blank s → all_bytes space_byte s = true.
Proof.
  induction 1 as [|sp s Hsp _ IH]; [done|].
  by rewrite all_bytes_app, white_space_bytes, IH.
Qed.

(** An instance of a text that starts with another byte does not start in
    leading white space. *)
Lemma Contains_after (l t : string) (c : ascii) (m' : string) :
  all_bytes space_byte l = true → space_byte c = false →
  Contains (l +:+ t) (String c m') = true → Contains t (String c m') = true.
Proof.
  intros Hl Hc. induction l as [|x l IH]; [done|].
  simpl in Hl. apply andb_true_iff in Hl as [Hx Hl].
  rewrite !Contains_spec. intros ([|y a] & b & Hab).
  - simpl in Hab. injection Hab as -> _. congruence.
  - simpl in Hab. injection Hab as _ Hab.
    apply Contains_spec, IH; [done|]. apply Contains_spec. by exists a, b.
Qed.

Lemma prefixes (t r m b : string) :
  t +:+ r = m +:+ b →
  (∃ k, t = m +:+ k) ∨ (∃ k, k ≠ "" ∧ m = t +:+ k ∧ r = k +:+ b).
Proof.
  revert m. induction t as [|x t IH]; intros m Heq.
  - destruct m as [|y m]; [left; by exists ""|].
    right. exists (String y m). by repeat split.
  - destruct m as [|y m]; [left; by exists (String x t)|].
    simpl in Heq. injection Heq as -> Heq.
    destruct (IH _ Heq) as [[k ->] | (k & Hk & -> & ->)].
    + left. by exists k.
    + right. by exists k.
Qed.

Lemma last_byte_app (c : ascii) (a k : string) (d : ascii) :
  k ≠ "" → last_byte c (a +:+ k) = last_byte d k.
Proof.
  revert c. induction a as [|x a IH]; intros c Hk.
  - by destruct k.
  - simpl. by apply IH.
Qed.

Lemma all_bytes_last (P : ascii → bool) (d : ascii) (k : string) :
  k ≠ "" → all_bytes P k = true → P (last_byte d k) = true.
Proof.
  revert d. induction k as [|x k IH]; intros d Hk; [done|].
  simpl. intros [Hx Hrest]%andb_true_iff.
  destruct k as [|y k]; [done|]. by apply IH.
Qed.

(** An instance of a text that ends with another byte does not end in
    trailing white space. *)
Lemma Contains_before (t r : string) (c : ascii) (m' : string) :
  all_bytes space_byte r = true →
  space_byte c = false → space_byte (last_byte c m') = false →
  Contains (t +:+ r) (String c m') = true → Contains t (String c m') = true.
Proof.
  intros Hr Hc Hlast. induction t as [|x t IH].
  - rewrite Contains_spec. intros (a & b & Hab). simpl in Hab.
    rewrite Hab, !all_bytes_app in Hr. simpl in Hr.
    rewrite Hc in Hr. by rewrite andb_false_r in Hr.
  - rewrite !Contains_spec. intros ([|y a] & b & Hab).
    + simpl in Hab.
      change (String x (t +:+ r)) with (String x t +:+ r) in Hab.
      change (String c (m' +:+ b)) with (String c m' +:+ b) in Hab.
      apply prefixes in Hab as [[k Hk] | (k & Hk & Hm & Hrk)].
      * exists "", k. by rewrite Hk.
      * exfalso. rewrite Hrk, all_bytes_app in Hr.
        apply andb_true_iff in Hr as [Hkb _].
        apply (all_bytes_last _ c _ Hk) in Hkb.
        simpl in Hm. injection Hm as <- ->.
        rewrite (last_byte_app _ _ _ c Hk) in Hlast. congruence.
    + simpl in Hab. injection Hab as _ Hab.
      assert (Contains t (String c m') = true)
        as (a' & b' & ->)%Contains_spec.
      { apply IH, Contains_spec. by exists a, b. }
      by exists (String x a'), b'.
Qed.

Lemma Contains_app_l (l t m : string) :
  Contains t m = true → Contains (l +:+ t) m = true.
Proof.
  rewrite !Contains_spec. intros (a & b & ->). exists (l +:+ a), b.
  by rewrite append_assoc.
Qed.

Lemma Contains_app_r (t r m : string) :
  Contains t m = true → Contains (t +:+ r) m = true.
Proof.
  rewrite !Contains_spec. intros (a & b & ->). exists a, (b +:+ r).
  by rewrite !append_assoc.
Qed.

(** [strings.TrimSpace] does not change whether a string contains a
    text that starts and ends with bytes other than those of white
    space. *)
Lemma TrimSpace_Contains (s m : string) :
  solid_ends m → Contains (TrimSpace s) m = Contains s m.
Proof.
  destruct m as [|c m']; [done|]. intros [Hc Hlast].
  destruct (trimLeft_split s) as (l & Hl%blank_bytes & Hs).
  destruct (trimRight_split (trimLeft 0 s)) as (r & Hr%blank_bytes & Ht).
  fold (TrimSpace s) in Ht.
  destruct (Contains (TrimSpace s) (String c m')) eqn:Htrim.
  - symmetry. rewrite Hs, Ht. by apply Contains_app_l, Contains_app_r.
  - destruct (Contains s (String c m')) eqn:Hraw; [|done].
    rewrite Hs in Hraw. apply Contains_after in Hraw; [|done..].
    rewrite Ht in Hraw. apply Contains_before in Hraw; [|done..].
    congruence.
Qed.

End TrimFacts.

(** ** Whether the service runs *)
Section ServiceFacts.
Import Strings updateutil Utility.
Variable VersionCompare : string → string → Z + error.

Local Abbreviation IsServiceRunning := (IsServiceRunning VersionCompare).

Lemma IsServiceRunning_run (sv : Service) (i : InstanceContext)
    (g : Globals) :
  initialised g →
  (IsServiceRunning sv i g).1
  = match (IsPlatformUsingSystemD VersionCompare i g).1 with
    | (_, Some err) => ((false, Some err), [])
    | (true, None) =>
        match Output sv systemctl with
        | (_, Some err) => ((false, Some err), [QueryCommand systemctl])
        | (out, None) =>
            ((Contains (TrimSpace out) "Active: active (running)", None),
             [QueryCommand systemctl])
        end
    | (false, None) =>
        match agentStatusOutput sv with
        | (_, Some err) => ((false, Some err), [QueryAgentStatus])
        | (out, None) =>
            ((Contains (TrimSpace out) (agentExpectedStatus sv), None),
             [QueryAgentStatus])
        end
    end.
Proof.
  intros Hg. unfold Utility.IsServiceRunning.
  destruct (IsPlatformUsingSystemD VersionCompare i g)
    as [[isSystemD [e|]] g']; cbn [fst]; [by destruct isSystemD|].
  destruct isSystemD.
  - fold systemctl. destruct (Output sv systemctl) as [out [e|]]; [done|].
    by destruct (Contains _ _).
  - destruct (agentStatusOutput sv) as [out [e|]]; [done|].
    by destruct (Contains _ _).
Qed.

(** X14: on a platform of the table whose version is at least the
    threshold, [IsServiceRunning] runs [systemctl status
    amazon-ssm-agent.service] and nothing else; the service runs exactly
    when the output, trimmed or not, contains [Active: active (running)],
    and a failure of the command is returned as an error. *)
Theorem IsServiceRunning_systemd (sv : Service) (i : InstanceContext)
    (g : Globals) (threshold : string) (compareResult : Z) :
  initialised g →
  SystemDVersionTable !! Platform i = Some threshold →
  VersionCompare (PlatformVersion i) threshold = inl compareResult →
  0 ≤ compareResult →
  let r := (IsServiceRunning sv i g).1 in
  r.2 = [QueryCommand systemctl]
  ∧ (∀ out, Output sv systemctl = (out, None) →
            r.1 = (Contains out "Active: active (running)", None))
  ∧ (∀ out err, Output sv systemctl = (out, Some err) →
                r.1 = (false, Some err)).
Proof.
  intros Hg Hkey Hcompare Hle r. subst r.
  rewrite (IsServiceRunning_run _ _ _ Hg).
  rewrite (IsPlatformUsingSystemD_answer _ _ _ Hg), Hkey, Hcompare.
  rewrite bool_decide_eq_true_2 by done.
  split; [|split].
  - by destruct (Output sv systemctl) as [out [e|]].
  - intros out ->. cbn [fst]. f_equal. apply TrimSpace_Contains.
    by vm_compute.
  - by intros out err ->.
Qed.

(** X15: on a platform outside the table, and on one of the table whose
    version is below the threshold, [IsServiceRunning] does not run
    [systemctl]: it answers from the status output of the agent, trimmed,
    and the expected status of the platform, and returns a failure of that
    query as an error; a version that cannot be compared is an error
    before any query. *)
Theorem IsServiceRunning_agent_status (sv : Service) (i : InstanceContext)
    (g : Globals) :
  initialised g →
  let r := (IsServiceRunning sv i g).1 in
  ((SystemDVersionTable !! Platform i = None
    ∨ ∃ threshold compareResult,
        SystemDVersionTable !! Platform i = Some threshold
        ∧ VersionCompare (PlatformVersion i) threshold = inl compareResult
        ∧ compareResult < 0) →
   r.2 = [QueryAgentStatus]
   ∧ (∀ out, agentStatusOutput sv = (out, None) →
             r.1 = (Contains (TrimSpace out) (agentExpectedStatus sv), None))
   ∧ (∀ out err, agentStatusOutput sv = (out, Some err) →
                 r.1 = (false, Some err)))
  ∧ (∀ threshold err,
       SystemDVersionTable !! Platform i = Some threshold →
       VersionCompare (PlatformVersion i) threshold = inr err →
       r = ((false, Some err), [])).
Proof.
  intros Hg r. subst r. rewrite (IsServiceRunning_run _ _ _ Hg).
  rewrite (IsPlatformUsingSystemD_answer _ _ _ Hg). split.
  - intros Hother.
    assert (match SystemDVersionTable !! Platform i with
            | Some val =>
                match VersionCompare (PlatformVersion i) val with
                | inl compareResult => (bool_decide (0 ≤ compareResult), None)
                | inr err => (false, Some err)
                end
            | None => (false, None)
            end = (false, None)) as ->.
    { destruct Hother as [-> | (threshold & c & -> & -> & Hc)]; [done|].
      by rewrite bool_decide_eq_false_2 by lia. }
    split; [|split].
    + by destruct (agentStatusOutput sv) as [out [e|]].
    + by intros out ->.
    + by intros out err ->.
  - by intros threshold err -> ->.
Qed.

End ServiceFacts.

(** ** Commands built for the updater *)
Section CommandFacts.
Import Strings updateutil Utility.

Lemma space_width_le (s : string) : (space_width s ≤ String.length s)%nat.
Proof.
  unfold space_width. destruct s as [|c0 [|c1 [|c2 s]]];
    repeat match goal with
           | |- context [if ?b then _ else _] => destruct b
           end; simpl; lia.
Qed.

(** A space after [a] does not make white space with the bytes of [a]. *)
Lemma space_width_before_space (a b : string) :
  a ≠ "" → space_width (a +:+ " " +:+ b) = space_width a.
Proof.
  intros Ha. destruct a as [|c0 [|c1 [|c2 a]]]; [done|..].
  - unfold space_width. cbn [String.app].
    destruct ((9 <=? N_of_ascii c0) && (N_of_ascii c0 <=? 13)
              || (N_of_ascii c0 =? 32))%N; [done|].
    change (N_of_ascii " ") with 32%N.
    destruct (N_of_ascii c0 =? 194)%N, (N_of_ascii c0 =? 225)%N,
      (N_of_ascii c0 =? 226)%N, (N_of_ascii c0 =? 227)%N, b; done.
  - unfold space_width. cbn [String.app].
    destruct ((9 <=? N_of_ascii c0) && (N_of_ascii c0 <=? 13)
              || (N_of_ascii c0 =? 32))%N; [done|].
    destruct ((N_of_ascii c0 =? 194)
              && ((N_of_ascii c1 =? 133) || (N_of_ascii c1 =? 160)))%N;
      [done|].
    change (N_of_ascii " ") with 32%N.
    destruct (N_of_ascii c0 =? 225)%N, (N_of_ascii c0 =? 226)%N,
      (N_of_ascii c0 =? 227)%N, (N_of_ascii c1 =? 154)%N,
      (N_of_ascii c1 =? 128)%N, (N_of_ascii c1 =? 129)%N; done.
  - done.
Qed.

Lemma Fields_go_app_space (a b : string) (skip : nat) (cur : option string) :
  (skip ≤ String.length a)%nat →
  Fields_go skip cur (a +:+ " " +:+ b)
  = Fields_go skip cur a ++ Fields_go 0 None b.
Proof.
  revert skip cur. induction a as [|c a IH]; intros skip cur Hskip.
  - simpl in Hskip. by replace skip with 0%nat by lia.
  - change (String c a +:+ " " +:+ b) with (String c (a +:+ " " +:+ b)).
    cbn [Fields_go]. destruct skip as [|k].
    + change (String c (a +:+ " " +:+ b)) with (String c a +:+ " " +:+ b).
      rewrite space_width_before_space by done.
      pose proof (space_width_le (String c a)) as Hle.
      destruct (space_width (String c a)) as [|w].
      * by apply IH; lia.
      * rewrite IH by (simpl in Hle; lia). by rewrite app_assoc.
    + apply IH. simpl in Hskip. lia.
Qed.

Lemma Fields_app_space (a b : string) :
  Fields (a +:+ " " +:+ b) = Fields a ++ Fields b.
Proof. apply Fields_go_app_space. lia. Qed.

(** X16: [ExeCommand] splits a command of [BuildUpdateCommand] into the
    fields of the command, those of the argument after its dash and those
    of the value: a value with white space in it arrives as several
    arguments.  Without an argument or without a value the command is left
    as it is. *)
Theorem BuildUpdateCommand_Fields (cmd arg value : string) :
  (arg ≠ "" → value ≠ "" →
   Fields (BuildUpdateCommand cmd arg value)
   = Fields cmd ++ Fields ("-" +:+ arg) ++ Fields value)
  ∧ (arg = "" ∨ value = "" → BuildUpdateCommand cmd arg value = cmd).
Proof.
  unfold BuildUpdateCommand. split.
  - intros Harg Hvalue. rewrite !bool_decide_eq_false_2 by done.
    cbn [orb].
    change (cmd +:+ " -" +:+ arg +:+ " " +:+ value)
      with (cmd +:+ " " +:+ ("-" +:+ arg) +:+ " " +:+ value).
    rewrite Fields_app_space.
    change (("-" +:+ arg) +:+ " " +:+ value)
      with (String "-" arg +:+ " " +:+ value).
    by rewrite Fields_app_space.
  - intros [-> | ->]; [|done]. by rewrite orb_true_r.
Qed.

End CommandFacts.

(** ** The outcome of a supervised command *)
Section OutcomeFacts.
Import Strings updateutil.
Variable CommandStoppedPreemptivelyExitCode : Z.
Variable ReadWriteExecuteAccess : Z.
Variable setPlatformSpecificCommand : list string → list string.
Variable prepareProcess : Cmd → Cmd.

Local Abbreviation setExeOutErr := (setExeOutErr ReadWriteExecuteAccess).
Local Abbreviation ExeCommand :=
  (ExeCommand CommandStoppedPreemptivelyExitCode ReadWriteExecuteAccess
     setPlatformSpecificCommand prepareProcess).

(** X17: under supervision and with its output files open, [ExeCommand]
    returns no error exactly when the child starts and [Wait] reports no
    error; a failure to start is returned as it is, the child is then not
    waited for, and a failure of [Wait] that is no exit error, or an exit
    error without a wait status, is returned as it is. *)
Theorem ExeCommand_supervised_outcome (os : OS)
    (cmd workingDir updaterRoot stdOut stdErr : string) (w w1 : World)
    (name : string) (arg : list string) (out err : option File) :
  setPlatformSpecificCommand (Fields cmd) = name :: arg →
  setExeOutErr os updaterRoot stdOut stdErr w = ((out, err, None), w1) →
  let command :=
    withOutput (withDir (execCommand name arg) workingDir) out err in
  let outcome :=
    (ExeCommand os cmd workingDir updaterRoot stdOut stdErr false w).1 in
  (outcome = Return None ↔
     cmdStart os command = None ∧ cmdWait os command = None)
  ∧ (∀ e, cmdStart os command = Some e → outcome = Return (Some e))
  ∧ (∀ e, cmdStart os command = None → cmdWait os command = Some e →
          (∀ text status, e ≠ ExitError text (Some status)) →
          outcome = Return (Some e)).
Proof.
  intros Hparts Hfiles command outcome. subst outcome.
  rewrite (ExeCommand_supervised _ _ _ _ _ _ _ _ _ _ _ _ _ _ _ _
             Hparts Hfiles).
  fold command. cbn [fst]. split; [|split].
  - destruct (cmdStart os command) as [e|].
    + split; [done | by intros [? _]].
    + destruct (cmdWait os command) as [[text [status|]|text]|];
        split; try done; by intros [_ ?].
  - by intros e ->.
  - intros e -> -> Hexit. destruct e as [text [status|]|text]; try done.
    by destruct (Hexit text status).
Qed.

(** X18: a call of [ExeCommand] that returns no error, detached or under
    supervision, leaves no file open that was not open before. *)
Theorem ExeCommand_no_error_no_leak (os : OS)
    (cmd workingDir updaterRoot stdOut stdErr : string) (isAsync : bool)
    (w : World) :
  Forall (λ f, (fd f < opened w)%nat) (open_files w) →
  let run :=
    ExeCommand os cmd workingDir updaterRoot stdOut stdErr isAsync w in
  run.1 = Return None → open_files run.2 = open_files w.
Proof.
  intros Hold run Hnone. subst run. destruct isAsync.
  - unfold updateutil.ExeCommand.
    destruct (Fields cmd); [done|]. by destruct (cmdStart os _).
  - destruct (ExeCommand_open_files CommandStoppedPreemptivelyExitCode
                ReadWriteExecuteAccess setPlatformSpecificCommand
                prepareProcess os cmd workingDir updaterRoot stdOut stdErr
                w Hold) as [Hsame | (Hdir & Hout & Herr & _)]; [done|].
    exfalso.
    destruct (openFile os (S (opened w)) _ _ _) as [e|] eqn:Hsecond; [|done].
    pose proof (setExeOutErr_second_fails ReadWriteExecuteAccess os
                  updaterRoot stdOut stdErr w e Hdir Hout Hsecond) as Hfiles.
    unfold updateutil.ExeCommand in Hnone.
    destruct (setPlatformSpecificCommand (Fields cmd)); [done|].
    by rewrite Hfiles in Hnone.
Qed.

End OutcomeFacts.

(** ** Paths *)
Section JoinFacts.
Import Strings Filepath updateutil Utility.

Lemma rev_app_app (a b : string) : String.rev_app a b = String.rev a +:+ b.
Proof.
  unfold String.rev. revert b. induction a as [|c a IH]; intros b; [done|].
  simpl. rewrite IH, (IH (String c "")). by rewrite append_assoc.
Qed.

Lemma split_go_cur (cur s : string) :
  split_go cur s
  = match split s with
    | h :: t => (String.rev cur +:+ h) :: t
    | [] => []
    end.
Proof.
  unfold split. revert cur. induction s as [|c s IH]; intros cur.
  - simpl. by rewrite append_nil_r.
  - simpl. destruct (Ascii.eqb c "/") eqn:Hc.
    + by rewrite append_nil_r.
    + rewrite (IH (String c cur)), (IH (String c "")).
      destruct (split_go "" s) as [|h t]; [done|].
      unfold String.rev. simpl. rewrite (rev_app_app cur).
      by rewrite append_assoc.
Qed.

Lemma split_cons (c : ascii) (s : string) :
  split (String c s)
  = if Ascii.eqb c "/" then "" :: split s
    else match split s with
         | h :: t => String c h :: t
         | [] => []
         end.
Proof.
  unfold split. simpl. destruct (Ascii.eqb c "/"); [done|].
  by rewrite split_go_cur.
Qed.

(** The elements of a path have no separator. *)
Lemma split_elements (s : string) : Forall (λ e, split e = [e]) (split s).
Proof.
  induction s as [|c s IH]; [by repeat constructor|].
  rewrite split_cons. destruct (Ascii.eqb c "/") eqn:Hc; [by constructor|].
  destruct (split s) as [|h t]; [done|].
  inversion IH as [|? ? Hh Ht]; subst.
  constructor; [|done]. by rewrite split_cons, Hc, Hh.
Qed.

Lemma split_Join (l : list string) :
  l ≠ [] → Forall (λ e, split e = [e]) l → split (Strings.Join l "/") = l.
Proof.
  intros Hl Hall. induction Hall as [|e l He Hall IH]; [done|].
  destruct l as [|e' l]; [done|].
  change (Strings.Join (e :: e' :: l) "/")
    with (e +:+ "/" +:+ Strings.Join (e' :: l) "/").
  unfold split. rewrite split_go_app.
  fold (split e) (split (Strings.Join (e' :: l) "/")).
  by rewrite He, IH.
Qed.

Lemma kept_elements (rooted : bool) (out : list string) :
  kept rooted out → Forall (λ e, split e = [e] ∧ e ≠ "") out.
Proof.
  induction out as [|e out IH]; [done|].
  intros (He & Hne & _ & _ & Hout). constructor; [done | by apply IH].
Qed.

Lemma kept_step (rooted : bool) (out : list string) (e : string) :
  kept rooted out → split e = [e] → kept rooted (clean_step rooted out e).
Proof.
  intros Hout He. unfold clean_step.
  case_bool_decide as Hskip; [done|].
  case_bool_decide as Hdots.
  - subst e. destruct out as [|top out'].
    + destruct rooted; [done|]. simpl. split_and!; try done.
      intros _. split; [done | by left].
    + destruct Hout as (Htop & Hne & Hdot & Hup & Hout').
      case_bool_decide as Htopdots; [|done].
      subst top. destruct (Hup eq_refl) as [-> _].
      simpl. split_and!; try done.
      intros _. split; [done|]. right. by eexists.
  - simpl. split_and!; try done; intros ->; apply Hskip; auto.
Qed.

Lemma kept_foldl (rooted : bool) (l out : list string) :
  kept rooted out → Forall (λ e, split e = [e]) l →
  kept rooted (foldl (clean_step rooted) out l).
Proof.
  intros Hout Hall. revert out Hout.
  induction Hall as [|e l He _ IH]; intros out Hout; [done|].
  simpl. by apply IH, kept_step.
Qed.

(** [Clean] on the elements it has kept keeps them again. *)
Lemma kept_replay (rooted : bool) (out : list string) :
  kept rooted out → foldl (clean_step rooted) [] (rev out) = out.
Proof.
  induction out as [|e out IH]; [done|].
  intros (He & Hne & Hdot & Hup & Hout). simpl.
  rewrite foldl_app, IH by done. simpl. unfold clean_step.
  rewrite bool_decide_eq_false_2 by (by intros [?|?]).
  case_bool_decide as Hdots; [|done].
  destruct (Hup Hdots) as [-> [-> | [rest ->]]]; [done|].
  by rewrite bool_decide_eq_true_2.
Qed.

Lemma Join_head (e : string) (l : list string) (sep : string) :
  ∃ rest, Strings.Join (e :: l) sep = e +:+ rest.
Proof.
  destruct l as [|e' l]; [exists ""; by rewrite append_nil_r|].
  by eexists.
Qed.

Lemma element_head (e rest : string) :
  split e = [e] → e ≠ "" →
  e +:+ rest ≠ "" ∧ HasPrefix (e +:+ rest) "/" = false.
Proof.
  destruct e as [|c e]; [done|]. intros He _. split; [done|].
  rewrite split_cons in He. simpl.
  by destruct (Ascii.eqb c "/").
Qed.

(** What [Clean] reads in its own result. *)
Lemma Clean_split (x : string) :
  let rooted := HasPrefix x "/" in
  HasPrefix (Clean x) "/" = rooted
  ∧ foldl (clean_step rooted) [] (split (Clean x))
    = foldl (clean_step rooted) [] (split x).
Proof.
  intros rooted. unfold Clean. fold rooted.
  set (out := foldl (clean_step rooted) [] (split x)).
  assert (kept rooted out) as Hkept
    by (apply kept_foldl; [done | apply split_elements]).
  pose proof (kept_replay _ _ Hkept) as Hreplay.
  pose proof (kept_elements _ _ Hkept) as Hall%Forall_rev.
  destruct (rev out) as [|e l] eqn:Hrev.
  - simpl in Hreplay. rewrite <- Hreplay. simpl. by destruct rooted.
  - assert (split (Strings.Join (e :: l) "/") = e :: l) as Hsplit.
    { apply split_Join; [done|].
      eapply Forall_impl; [exact Hall|]. by intros ? [? _]. }
    destruct (Join_head e l "/") as [rest Hjoin].
    inversion Hall as [|? ? [He Hne] _]; subst.
    destruct (element_head e rest He Hne) as [Hnil Hprefix].
    rewrite <- Hjoin in Hnil, Hprefix.
    destruct rooted.
    + split; [done|].
      change (split ("/" +:+ Strings.Join (e :: l) "/"))
        with ("" :: split (Strings.Join (e :: l) "/")).
      by rewrite Hsplit.
    + rewrite bool_decide_eq_false_2 by done. by rewrite Hsplit.
Qed.

Lemma Clean_Clean (x : string) : Clean (Clean x) = Clean x.
Proof.
  destruct (Clean_split x) as [Hrooted Hsplit].
  unfold Clean at 1. by rewrite Hrooted, Hsplit.
Qed.

Lemma HasPrefix_app (x y : string) :
  x ≠ "" → HasPrefix (x +:+ y) "/" = HasPrefix x "/".
Proof. by destruct x. Qed.

Lemma Clean_app (x y : string) :
  x ≠ "" → Clean (Clean x +:+ "/" +:+ y) = Clean (x +:+ "/" +:+ y).
Proof.
  intros Hx. destruct (Clean_split x) as [Hrooted Hsplit].
  unfold Clean at 1 3.
  rewrite !HasPrefix_app by (done || apply Clean_nonempty).
  rewrite Hrooted. unfold split. rewrite !split_go_app.
  fold (split (Clean x)) (split x) (split y).
  by rewrite !foldl_app, Hsplit.
Qed.

Lemma Join_app (e f : string) (es fs : list string) :
  Strings.Join ((e :: es) ++ f :: fs) "/"
  = Strings.Join (e :: es) "/" +:+ "/" +:+ Strings.Join (f :: fs) "/".
Proof.
  revert e. induction es as [|e' es IH]; intros e; [done|].
  change (Strings.Join ((e :: e' :: es) ++ f :: fs) "/")
    with (e +:+ "/" +:+ Strings.Join ((e' :: es) ++ f :: fs) "/").
  rewrite IH.
  change (Strings.Join (e :: e' :: es) "/")
    with (e +:+ "/" +:+ Strings.Join (e' :: es) "/").
  by rewrite !append_assoc.
Qed.

(** [filepath.Join] of a joined path and further elements is the join of
    all the elements. *)
Lemma Join_nested (es fs : list string) :
  Filepath.Join (Filepath.Join es :: fs) = Filepath.Join (es ++ fs).
Proof.
  unfold Filepath.Join at 1 3. rewrite filter_app, filter_cons.
  unfold Filepath.Join.
  destruct (filter (λ e, e ≠ "") es) as [|e es'] eqn:Hes.
  - by rewrite decide_False by (by intros []).
  - rewrite decide_True by apply Clean_nonempty.
    assert (e ≠ "") as He.
    { assert (e ∈ filter (λ e, e ≠ "") es) as Hin
        by (rewrite Hes; apply list_elem_of_here).
      by apply list_elem_of_filter in Hin as [? _]. }
    destruct (filter (λ e, e ≠ "") fs) as [|f fs'].
    + rewrite app_nil_r. apply Clean_Clean.
    + set (dir := Clean (Strings.Join (e :: es') "/")).
      change (Clean (Strings.Join (dir :: f :: fs') "/")
              = Clean (Strings.Join ((e :: es') ++ f :: fs') "/")).
      rewrite Join_app.
      change (Strings.Join (dir :: f :: fs') "/")
        with (dir +:+ "/" +:+ Strings.Join (f :: fs') "/").
      apply Clean_app.
      destruct (Join_head e es' "/") as [rest ->]. by destruct e.
Qed.

(** X19: the paths of the update are joins of the update root and the
    elements below it: the path of the updater is that of the four
    elements, and the paths of the two output files are those of the root,
    the output folder and the file name, the default name for an empty
    one. *)
Theorem update_paths_flat (updateRoot packageName version fileName : string) :
  UpdaterFilePath updateRoot packageName version
  = Filepath.Join [updateRoot; packageName; version; Updater]
  ∧ UpdateStandOutPath updateRoot fileName
    = Filepath.Join
        [updateRoot; DefaultOutputFolder;
         if bool_decide (fileName = "") then DefaultStandOut else fileName]
  ∧ UpdateStandErrPath updateRoot fileName
    = Filepath.Join
        [updateRoot; DefaultOutputFolder;
         if bool_decide (fileName = "") then DefaultStandErr else fileName].
Proof.
  unfold UpdaterFilePath, UpdateArtifactFolder, UpdateStandOutPath,
    UpdateStandErrPath, UpdateOutputDirectory.
  by rewrite !Join_nested.
Qed.

(** X20: the paths of the update are clean: [filepath.Clean] leaves them as
    they are. *)
Theorem update_paths_clean (updateRoot packageName version fileName : string) :
  Forall (λ path, Clean path = path)
    [UpdateContextFilePath updateRoot;
     UpdatePluginResultFilePath updateRoot;
     UpdaterFilePath updateRoot packageName version;
     UpdateOutputDirectory updateRoot;
     UpdateStandOutPath updateRoot fileName;
     UpdateStandErrPath updateRoot fileName].
Proof.
  assert (∀ es e, e ≠ "" →
            Clean (Filepath.Join (es ++ [e])) = Filepath.Join (es ++ [e]))
    as Hclean.
  { intros es e He. unfold Filepath.Join.
    rewrite filter_app, filter_cons, decide_True by done.
    destruct (filter _ es ++ _) eqn:Hl; [by destruct (filter _ es)|].
    apply Clean_Clean. }
  unfold UpdateContextFilePath, UpdatePluginResultFilePath, UpdaterFilePath,
    UpdateStandOutPath, UpdateStandErrPath, UpdateOutputDirectory.
  repeat constructor.
  - by apply (Hclean [_]).
  - by apply (Hclean [_]).
  - by apply (Hclean [_]).
  - by apply (Hclean [_]).
  - apply (Hclean [_]). by case_bool_decide.
  - apply (Hclean [_]). by case_bool_decide.
Qed.

End JoinFacts.

(** ** The further properties on concrete runs *)

Lemma waitForSubmitStatus_first_match_witness :
  clicommand.waitForSubmitStatus localCommandRoot localCommandRootSubmitted
    localCommandRootInvalid third_attempt "8c2f" clicommand.start
  = ("successfully submitted with command id: 7d1a",
     {| clicommand.clock := 7;
        clicommand.trace :=
          attempt localCommandRootSubmitted localCommandRootInvalid
            ++ attempt localCommandRootSubmitted localCommandRootInvalid
            ++ [clicommand.EvGetFileNames localCommandRootSubmitted] |}).
Proof.
  refine (proj1 (waitForSubmitStatus_first_match localCommandRoot
                   localCommandRootSubmitted localCommandRootInvalid
                   third_attempt "8c2f" clicommand.start 2 _ _) _).
  - lia.
  - intros j Hj. do 2 (destruct j as [|j]; [split; vm_compute; constructor|]).
    lia.
  - reflexivity.
Defined.

Lemma validateSendCommandInput_accepts_witness :
  clicommand.validateSendCommandInput dashes braces scheme ["content"] []
    one_content = [].
Proof.
  apply (proj2 (validateSendCommandInput_accepts dashes braces scheme
                  ["content"] [] one_content
                  ltac:(unfold clicommand.range_order, one_content;
                        by rewrite map_to_list_singleton))).
  split; [done|]. exists "{}". split; [done | by left].
Defined.

Lemma Execute_rejects_witness :
  SendOfflineCommand.Execute dashes braces scheme Strings.lowerASCII
    localCommandRoot localCommandRootSubmitted localCommandRootInvalid
    willing ["verbose"] status_verbose.1 status_verbose.2
  = (SendOfflineCommand.Returned
       (Some (errorString
                ("send-offline-command does not support subcommand [status]"
                   +:+ SendOfflineCommand.newline))) "",
     []).
Proof.
  refine (Execute_rejects dashes braces scheme Strings.lowerASCII
            localCommandRoot localCommandRootSubmitted localCommandRootInvalid
            willing ["verbose"] status_verbose.1 status_verbose.2
            Subcommands _ _).
  - unfold clicommand.range_order, status_verbose. simpl.
    by rewrite map_to_list_singleton.
  - discriminate.
Defined.

Lemma Execute_outcomes_witness :
  "successfully submitted with command id: 01" = clicommand.timedOut
  ∨ "successfully submitted with command id: 01" = clicommand.invalid
  ∨ ∃ id, "successfully submitted with command id: 01"
          = clicommand.submitted id.
Proof.
  refine (proj1 (proj2 (Execute_outcomes dashes braces scheme
                          Strings.lowerASCII localCommandRoot
                          localCommandRootSubmitted localCommandRootInvalid
                          willing ["content"] [] one_content None
                          "successfully submitted with command id: 01" _ _)
                   eq_refl)).
  vm_compute. reflexivity.
Defined.

Lemma loadContent_file_scheme_witness :
  (SendOfflineCommand.loadContent braces Strings.lowerASCII willing
     "FILE:///tmp/document.json").2
  = [SendOfflineCommand.OpDownload "/tmp/document.json"].
Proof.
  refine (proj1 (proj2 (loadContent_file_scheme braces Strings.lowerASCII
                          willing "FILE:///tmp/document.json" _ _) _)
            "FILE://" "/tmp/document.json" _ _).
  - by intros s _.
  - reflexivity.
  - reflexivity.
  - reflexivity.
  - reflexivity.
Defined.

Lemma CreateInstanceContext_platform_witness :
  (updateutil.Platform redhat74_context,
   updateutil.InstallerName redhat74_context)
  ∈ [("linux", "linux"); ("red hat", "linux"); ("ubuntu", "ubuntu");
     ("centos", "linux"); ("windows", "windows")].
Proof.
  refine (proj1 (CreateInstanceContext_platform Strings.lowerASCII "amd64"
                   "tar.gz" redhat74 redhat74_context _)).
  reflexivity.
Defined.

Lemma CreateInstanceContext_systemd_witness :
  Strings.Contains
    (Strings.lowerASCII "Red Hat Enterprise Linux Server") "amazon" = false.
Proof.
  refine (proj1 (CreateInstanceContext_systemd Strings.lowerASCII "amd64"
                   "tar.gz" compareMajor redhat74 redhat74_context
                   updateutil.initial _ initialised_initial _)).
  - reflexivity.
  - reflexivity.
Defined.

Lemma CreateInstanceContext_region_witness :
  Utility.CreateInstanceContext Strings.lowerASCII "amd64" "tar.gz" amazon2
  = Utility.CreateInstanceContext Strings.lowerASCII "amd64" "tar.gz"
      {| Utility.getRegion := ("us-east-1", None);
         Utility.getPlatformName := Utility.getPlatformName amazon2;
         Utility.getPlatformVersion := Utility.getPlatformVersion amazon2 |}.
Proof.
  refine (proj2 (CreateInstanceContext_region Strings.lowerASCII "amd64"
                   "tar.gz" amazon2 "us-east-1"
                   (Some (errorString "metadata: slow")) None _) _).
  - reflexivity.
  - discriminate.
Defined.

Lemma FileName_plain_witness :
  Utility.FileName redhat74_context "amazon-ssm-agent"
  = "amazon-ssm-agent-linux-amd64.tar.gz".
Proof.
  refine (FileName_plain redhat74_context "amazon-ssm-agent" _ _ _);
    by vm_compute.
Defined.

Lemma FileName_place_holder_witness :
  Utility.FileName redhat74_context "agent-{Arch}-beta"
  = "agent-amd64-beta-linux-amd64.tar.gz".
Proof.
  refine (FileName_place_holder redhat74_context "agent-" "-beta" _ _ _ _);
    by vm_compute.
Defined.

Lemma BuildMessages_join_witness :
  Utility.BuildMessages format_verbs
    [errorString "disk full"; errorString "no network"]
    "Failed to update " ["agent"]
  = "Failed to update agent, ErrorMessage=disk full, no network".
Proof.
  refine (proj1 (proj2 (proj2 (BuildMessages_join format_verbs
                                 (errorString "disk full")
                                 [errorString "no network"]
                                 "Failed to update " ["agent"]))) _).
  discriminate.
Defined.

Lemma IsPlatformUsingSystemD_once_witness :
  (updateutil.IsPlatformUsingSystemD compareMajor ubuntu1604
     (updateutil.IsPlatformUsingSystemD compareMajor windows2016
        updateutil.initial).2).2
  = (updateutil.IsPlatformUsingSystemD compareMajor windows2016
       updateutil.initial).2.
Proof.
  refine (proj2 (proj2 (proj2 (IsPlatformUsingSystemD_once compareMajor
                                 windows2016 ubuntu1604 updateutil.initial
                                 initialised_initial)))).
Defined.

Lemma IsServiceRunning_systemd_witness :
  (Utility.IsServiceRunning compareMajor running redhat74_context
     updateutil.initial).1
  = ((true, None), [Utility.QueryCommand systemctl]).
Proof.
  pose proof (IsServiceRunning_systemd compareMajor running redhat74_context
                updateutil.initial "7" 0 initialised_initial eq_refl eq_refl
                ltac:(lia)) as (Hquery & Hanswer & _).
  specialize (Hanswer _ eq_refl).
  destruct (Utility.IsServiceRunning _ _ _ _).1 as [answer queries].
  simpl in Hquery, Hanswer. by subst.
Defined.

Lemma IsServiceRunning_agent_status_witness :
  (Utility.IsServiceRunning compareMajor running windows2016
     updateutil.initial).1
  = ((true, None), [Utility.QueryAgentStatus]).
Proof.
  pose proof (proj1 (IsServiceRunning_agent_status compareMajor running
                       windows2016 updateutil.initial initialised_initial)
                (or_introl eq_refl)) as (Hquery & Hanswer & _).
  specialize (Hanswer _ eq_refl).
  destruct (Utility.IsServiceRunning _ _ _ _).1 as [answer queries].
  simpl in Hquery, Hanswer. by subst.
Defined.

Lemma BuildUpdateCommand_Fields_witness :
  Strings.Fields
    (Utility.BuildUpdateCommand "updater -update" "source.version" "2.0.1 rc")
  = ["updater"; "-update"; "-source.version"; "2.0.1"; "rc"].
Proof.
  refine (proj1 (BuildUpdateCommand_Fields "updater -update" "source.version"
                   "2.0.1 rc") _ _); discriminate.
Defined.

Lemma ExeCommand_supervised_outcome_witness :
  (updateutil.ExeCommand stoppedPreemptively readWriteExecuteAccess sameParts
     sameProcess obliging "updater -update" "/tmp" updateRoot "" "" false
     updateutil.fresh).1
  = updateutil.Return None.
Proof.
  refine (proj2 (proj1 (ExeCommand_supervised_outcome stoppedPreemptively
                          readWriteExecuteAccess sameParts sameProcess
                          obliging "updater -update" "/tmp" updateRoot "" ""
                          updateutil.fresh _ "updater" ["-update"] _ _ _ _))
            _).
  - reflexivity.
  - reflexivity.
  - by split.
Defined.

Lemma ExeCommand_no_error_no_leak_witness :
  updateutil.open_files
    (updateutil.ExeCommand stoppedPreemptively readWriteExecuteAccess
       sameParts sameProcess obliging "updater -update" "/tmp" updateRoot
       "" "" false updateutil.fresh).2
  = updateutil.open_files updateutil.fresh.
Proof.
  refine (ExeCommand_no_error_no_leak stoppedPreemptively
            readWriteExecuteAccess sameParts sameProcess obliging
            "updater -update" "/tmp" updateRoot "" "" false updateutil.fresh
            _ _).
  - constructor.
  - reflexivity.
Defined.
